(** * Mock RAOIDC provider and relying-party callback: model and properties

  A shallow embedding of
    - the route module [raoidc] (the mock OpenID-Connect provider:
      [handleAuthorizeRequest], [handleTokenRequest],
      [handleUserinfoRequest], the three token generators and the
      in-memory [tokenCache]), and
    - the route module [callback] ([handleCallback]) with [withSpan] of
      [app/.server/utils/telemetry-utils.ts].

  Conventions of the embedding.
    - Time is the wall clock in milliseconds, an integer.  Every handler
      touches the cache in one synchronous segment, so a request is
      handled atomically at one instant; a timer fires when the clock
      reaches its due time.  Each setter of a token builder reads the
      clock itself: the readings are the instant of the request plus
      what the oracle [skew] gives for that reading.
    - [redirect] sets [Location] through [headers.set], which trims the
      value and throws on a value it refuses; a handler whose redirect
      throws completes with a [TypeError] instead of a response.
    - The [jose] library is modelled symbolically: a key pair is named by
      an identifier, a signed token remembers its signing key, an
      encrypted token remembers its recipient key.  The compact
      serialisation of a token is identified with the symbolic term.
    - [string | null] and [string | undefined] are [option string]. *)

From Stdlib Require Import ZArith Lia Ascii String.
From stdpp Require Import base option strings list gmap.

Local Open Scope Z_scope.
Local Open Scope string_scope.

(* ================================================================== *)
(** ** HTTP primitives *)
(* ================================================================== *)

Module Http.

(** JSON values as far as the handlers build them.  [JCompact] is a JSON
  string holding the compact serialisation of a token. *)
Inductive JValue (T : Type) : Type :=
| JBool (b : bool)
| JNumber (n : Z)
| JString (s : string)
| JCompact (t : T).

Arguments JBool {T} b.
Arguments JNumber {T} n.
Arguments JString {T} s.
Arguments JCompact {T} t.

(** A JSON object literal: its properties in the order written. *)
Definition Json (T : Type) : Type := list (string * JValue T).

(** A [Response]: status, JSON body (if any), [Location] header (if any). *)
Record Response (T : Type) : Type := mkResponse {
  status : Z;
  body : option (Json T);
  location : option string
}.

Arguments mkResponse {T} status body location.
Arguments status {T} r.
Arguments body {T} r.
Arguments location {T} r.

(** Modelled from the spec: [HttpStatusCodes.BAD_REQUEST] of
    [app/utils/http-status-codes], which is not part of the sources at
    hand; the spec gives 400 for the client error of the handlers. *)
Definition BAD_REQUEST : Z := 400.

(** The status of [Response.json(data)] without [init], and of
    [redirect(url)] without [init]. *)
Definition OK : Z := 200.
Definition FOUND : Z := 302.

(** [Response.json(data)], status 200 unless given. *)
Definition Response_json {T} (data : Json T) (st : Z) : Response T :=
  mkResponse st (Some data) None.

(** How a call that builds a response ends: with the response, or with
    the [TypeError] the platform throws. *)
Inductive Completion (T : Type) : Type :=
| Normal (r : Response T)
| TypeError.

Arguments Normal {T} r.
Arguments TypeError {T}.

(** HTTP whitespace: tab, LF, CR, space. *)
Definition isHttpWhitespace (c : ascii) : bool :=
  Ascii.eqb c "009" || Ascii.eqb c "010" || Ascii.eqb c "013" || Ascii.eqb c " ".

(** What a header value must not hold: NUL, LF, CR. *)
Definition isForbiddenInHeader (c : ascii) : bool :=
  Ascii.eqb c "000" || Ascii.eqb c "010" || Ascii.eqb c "013".

Fixpoint trimStart (s : string) : string :=
  match s with
  | EmptyString => EmptyString
  | String c rest => if isHttpWhitespace c then trimStart rest else s
  end.

Fixpoint trimEnd (s : string) : string :=
  match s with
  | EmptyString => EmptyString
  | String c rest =>
      match trimEnd rest with
      | EmptyString => if isHttpWhitespace c then EmptyString else String c EmptyString
      | kept => String c kept
      end
  end.

Fixpoint holdsForbidden (s : string) : bool :=
  match s with
  | EmptyString => false
  | String c rest => isForbiddenInHeader c || holdsForbidden rest
  end.

(** [headers.set(name, value)] of the platform, as far as the value goes:
    HTTP whitespace is taken off both ends, and a value that then holds
    NUL, LF or CR is refused with a [TypeError].  (A code unit above 255
    is refused too; the strings of this model have none.)  Returns the
    value the header is set to. *)
Definition Headers_set (value : string) : option string :=
  let normalized := trimEnd (trimStart value) in
  if holdsForbidden normalized then None else Some normalized.

(** [redirect(url)] of react-router: a 302 without a body whose [Location]
    header is set to [url] through [headers.set]. *)
Definition redirect {T} (url : string) : Completion T :=
  match Headers_set url with
  | Some value => Normal (mkResponse FOUND None (Some value))
  | None => TypeError
  end.

(** [redirect(url.toString())] for a [URL] object: the serialisation of a
    URL is ASCII without whitespace or control characters, so
    [headers.set] takes it as it is and the call cannot throw. *)
Definition redirectUrl {T} (url : string) : Response T :=
  mkResponse FOUND None (Some url).

(** A template literal interpolates [null] as the string "null". *)
Definition interpolate (v : option string) : string :=
  match v with
  | Some s => s
  | None => "null"
  end.

(** JavaScript truthiness of a [string | null]: [null] and the empty
    string are falsy.  Returns the string when it is truthy. *)
Definition truthy (v : option string) : option string :=
  match v with
  | Some "" => None
  | Some s => Some s
  | None => None
  end.

Definition isTruthy (v : option string) : bool :=
  match truthy v with
  | Some _ => true
  | None => false
  end.

(** [v !== expected] for [v : string | null] and a string [expected]. *)
Definition strictNe (v : option string) (expected : string) : bool :=
  match v with
  | Some s => negb (String.eqb s expected)
  | None => true
  end.

(** [array.includes(s)]. *)
Definition includes (l : list string) (s : string) : bool :=
  existsb (String.eqb s) l.

(** A request as far as the handlers look at it: its URL, the origin of
    that URL, its query string and its form body.  [get] on either returns
    the first value of the name, [None] when there is none. *)
Record Request : Type := mkRequest {
  href : string;
  origin : string;
  searchParams : list (string * string);
  formData : list (string * string)
}.

Fixpoint params_get (l : list (string * string)) (name : string) : option string :=
  match l with
  | [] => None
  | (k, v) :: rest => if String.eqb k name then Some v else params_get rest name
  end.

End Http.

(* ================================================================== *)
(** ** Symbolic [jose] *)
(* ================================================================== *)

Module Jose.

Definition KeyId : Type := string.

Inductive PublicKey : Type := SPKI (k : KeyId).
Inductive PrivateKey : Type := PKCS8 (k : KeyId).

(** The public half of a private key. *)
Definition publicOf (sk : PrivateKey) : PublicKey :=
  match sk with PKCS8 k => SPKI k end.

Definition PublicKey_eqb (a b : PublicKey) : bool :=
  match a, b with SPKI x, SPKI y => String.eqb x y end.

(** [createHash('md5').update(key).digest('hex')], uninterpreted. *)
Inductive Digest : Type := MD5 (pk : PublicKey).

(** The claims of a JWT.  The registered claims are unset until their
    setter is called; [custom] is the object given to [new SignJWT]. *)
Record JWTPayload : Type := mkPayload {
  iss : option string;
  aud : option string;
  sub : option string;
  jti : option string;
  iat : option Z;
  exp : option Z;
  nbf : option Z;
  custom : list (string * string)
}.

Record JWSHeader : Type := mkJWSHeader { alg : string; kid : Digest }.

(** The state of a [SignJWT] builder. *)
Record SignJWT : Type := mkSignJWT {
  payload : JWTPayload;
  protectedHeader : option JWSHeader
}.

Definition newSignJWT (claims : list (string * string)) : SignJWT :=
  mkSignJWT (mkPayload None None None None None None None claims) None.

(** Time spans as [jose]'s [secs] reads them: ['20m'], ['30s ago']. *)
Inductive TimeSpan : Type :=
| Minutes (n : Z)
| SecondsAgo (n : Z).

Definition secs (t : TimeSpan) : Z :=
  match t with
  | Minutes n => n * 60
  | SecondsAgo n => - n
  end.

(** [epoch(new Date())]: whole seconds of a millisecond clock. *)
Definition epoch (now : Z) : Z := now / 1000.

Definition setProtectedHeader (h : JWSHeader) (b : SignJWT) : SignJWT :=
  mkSignJWT (payload b) (Some h).

Definition setAudience (a : string) (b : SignJWT) : SignJWT :=
  let p := payload b in
  mkSignJWT (mkPayload (iss p) (Some a) (sub p) (jti p) (iat p) (exp p) (nbf p) (custom p))
            (protectedHeader b).

Definition setExpirationTime (now : Z) (t : TimeSpan) (b : SignJWT) : SignJWT :=
  let p := payload b in
  mkSignJWT (mkPayload (iss p) (aud p) (sub p) (jti p) (iat p) (Some (epoch now + secs t)) (nbf p) (custom p))
            (protectedHeader b).

Definition setIssuedAt (now : Z) (b : SignJWT) : SignJWT :=
  let p := payload b in
  mkSignJWT (mkPayload (iss p) (aud p) (sub p) (jti p) (Some (epoch now)) (exp p) (nbf p) (custom p))
            (protectedHeader b).

Definition setIssuer (i : string) (b : SignJWT) : SignJWT :=
  let p := payload b in
  mkSignJWT (mkPayload (Some i) (aud p) (sub p) (jti p) (iat p) (exp p) (nbf p) (custom p))
            (protectedHeader b).

Definition setJti (j : string) (b : SignJWT) : SignJWT :=
  let p := payload b in
  mkSignJWT (mkPayload (iss p) (aud p) (sub p) (Some j) (iat p) (exp p) (nbf p) (custom p))
            (protectedHeader b).

Definition setNotBefore (now : Z) (t : TimeSpan) (b : SignJWT) : SignJWT :=
  let p := payload b in
  mkSignJWT (mkPayload (iss p) (aud p) (sub p) (jti p) (iat p) (exp p) (Some (epoch now + secs t)) (custom p))
            (protectedHeader b).

Definition setSubject (s : string) (b : SignJWT) : SignJWT :=
  let p := payload b in
  mkSignJWT (mkPayload (iss p) (aud p) (Some s) (jti p) (iat p) (exp p) (nbf p) (custom p))
            (protectedHeader b).

(** A signed token: header, claims, and the key that signed it. *)
Record JWS : Type := mkJWS {
  jws_header : option JWSHeader;
  jws_payload : JWTPayload;
  jws_signer : PrivateKey
}.

Definition sign (key : PrivateKey) (b : SignJWT) : JWS :=
  mkJWS (protectedHeader b) (payload b) key.

Record JWEHeader : Type := mkJWEHeader { jwe_alg : string; jwe_enc : string }.

(** An encrypted token: header, the key it was wrapped for, and the
    signed token it hides. *)
Record JWE : Type := mkJWE {
  jwe_header : JWEHeader;
  jwe_recipient : PublicKey;
  jwe_plaintext : JWS
}.

(** [new CompactEncrypt(plaintext).setProtectedHeader(h).encrypt(key)]. *)
Definition CompactEncrypt (plaintext : JWS) (h : JWEHeader) (key : PublicKey) : JWE :=
  mkJWE h key plaintext.

(** [compactDecrypt(jwe, key)]: opens exactly with the private half of
    the recipient key. *)
Definition compactDecrypt (tok : JWE) (key : PrivateKey) : option JWS :=
  if PublicKey_eqb (publicOf key) (jwe_recipient tok)
  then Some (jwe_plaintext tok)
  else None.

(** Signature check of [jwtVerify(jws, key)]: holds exactly for the
    public half of the signing key. *)
Definition verifies (tok : JWS) (key : PublicKey) : bool :=
  PublicKey_eqb (publicOf (jws_signer tok)) key.

End Jose.

(* ================================================================== *)
(** ** The mock provider: [routes/auth/raoidc.tsx] *)
(* ================================================================== *)

Module Raoidc.

Import Http Jose.

(** [serverEnvironment], as far as the provider reads it.  The PEM keys
    are taken as already imported ([importSPKI], [importPKCS8]). *)
Record ServerEnvironment : Type := mkEnv {
  AUTH_ENABLE_STUB_LOGIN : bool;
  AUTH_CLIENT_PRIVATE_KEY : PrivateKey;
  AUTH_CLIENT_PUBLIC_KEY : PublicKey;
  AUTH_SERVER_PRIVATE_KEY : PrivateKey;
  AUTH_SERVER_PUBLIC_KEY : PublicKey;
  AUTH_RAOIDC_CLIENT_ID : string;
  AUTH_RAOIDC_ISSUER : string
}.

(** The value type of [tokenCache]. *)
Record TokenSet : Type := mkTokenSet {
  accessToken : JWE;
  idToken : JWE
}.

(** A pending [setTimeout(() => tokenCache.delete(code), delay)]: every
    timer of the module has this callback, so a timer is its due time and
    the code it deletes. *)
Record Timer : Type := mkTimer {
  due : Z;
  target : string
}.

(** The purpose of a token: which generator produced it. *)
Inductive TokenKind : Type := Access | Id | Userinfo.

(** The process state the module lives in.
      - [now]: the clock, in milliseconds;
      - [tokenCache]: the module-level [Map];
      - [timers]: the pending timers, oldest first;
      - [rngPos]: how many characters the random source has handed out;
      - [minted]: a ghost log of the tokens signed so far, oldest first. *)
Record World : Type := mkWorld {
  now : Z;
  tokenCache : gmap string TokenSet;
  timers : list Timer;
  rngPos : nat;
  minted : list (TokenKind * JWE)
}.

(** Handlers are state transformers over [World]. *)
Definition M (A : Type) : Type := World -> A * World.

Definition ret {A} (a : A) : M A := fun w => (a, w).

Definition bind {A B} (c : M A) (k : A -> M B) : M B :=
  fun w => let (a, w') := c w in k a w'.

Notation "'let*' x ':=' c 'in' k" := (bind c (fun x => k))
  (at level 10, x name, c at level 100, k at level 200).
Notation "'run*' c 'in' k" := (bind c (fun _ => k))
  (at level 10, c at level 100, k at level 200).


(** [tokenCache.get(code)]. *)
Definition cacheGet (code : string) : M (option TokenSet) :=
  fun w => (tokenCache w !! code, w).

(** [tokenCache.set(code, value)]. *)
Definition cacheSet (code : string) (v : TokenSet) : M unit :=
  fun w => (tt, mkWorld (now w) (<[code := v]> (tokenCache w)) (timers w) (rngPos w) (minted w)).

(** [setTimeout(() => tokenCache.delete(code), delay)]. *)
Definition setTimeout (code : string) (delay : Z) : M unit :=
  fun w => (tt, mkWorld (now w) (tokenCache w)
                        (timers w ++ [mkTimer (now w + delay) code])
                        (rngPos w) (minted w)).

Definition logMinted (k : TokenKind) (t : JWE) : M unit :=
  fun w => (tt, mkWorld (now w) (tokenCache w) (timers w) (rngPos w) (minted w ++ [(k, t)])).

(** Is the timer due when the clock shows [t]? *)
Definition isDue (t : Z) (tm : Timer) : bool := (due tm <=? t)%Z.

(** The event loop: the clock moves on to [t] (it never runs backwards)
    and every timer due by then runs its [tokenCache.delete]. *)
Definition advance (t : Z) (w : World) : World :=
  let t' := Z.max t (now w) in
  mkWorld t'
          (foldr (fun tm c => delete (target tm) c) (tokenCache w)
                 (filter (fun tm => isDue t' tm = true) (timers w)))
          (filter (fun tm => isDue t' tm = false) (timers w))
          (rngPos w) (minted w).

Definition ALLOWED_CALLBACKS : list string := ["/auth/callback"].

(** [new URL(path, origin).toString()] for an absolute path. *)
Definition resolveUrl (path origin : string) : string := origin +:+ path.

Definition getAllowedCallbacks (request : Request) : list string :=
  map (fun allowedCallback => resolveUrl allowedCallback (origin request)) ALLOWED_CALLBACKS.

Definition errorResponse (code : string) : Response JWE :=
  Response_json [("error", JString code)] BAD_REQUEST.

Section Provider.

Variable env : ServerEnvironment.

(** The random source: the character drawn at each position. *)
Variable entropy : nat -> ascii.

(** The clock as the token builders read it.  [setExpirationTime],
    [setIssuedAt] and [setNotBefore] are given no date, so each reads the
    clock itself, one after the other; the [n]-th reading that the
    builders of the process make shows the time of the request plus
    [skew n] milliseconds. *)
Variable skew : nat -> Z.

(** The [k]-th clock reading of the builder that mints the next token. *)
Definition readClock (k : nat) : M Z :=
  fun w => (now w + skew (3 * length (minted w) + k), w).

Fixpoint draw (pos len : nat) : string :=
  match len with
  | O => ""
  | S n => String (entropy pos) (draw (S pos) n)
  end.

(** Modelled from the spec: [randomString] of [app/utils/string-utils] is
    not part of the sources at hand; the spec describes an opaque random
    code with as many characters of randomness as asked for.  Here it
    takes the next [len] characters of the random source. *)
Definition randomString (len : nat) : M string :=
  fun w => (draw (rngPos w) len,
            mkWorld (now w) (tokenCache w) (timers w) (rngPos w + len)%nat (minted w)).

Definition generatePublicKeyId : Digest := MD5 (AUTH_SERVER_PUBLIC_KEY env).

Definition generateAccessToken (nonce : string) : M JWE :=
  let* t1 := readClock 0 in
  let* t2 := readClock 1 in
  let* t3 := readClock 2 in
  let signedAccessToken :=
    sign (AUTH_SERVER_PRIVATE_KEY env)
      (setSubject "00000000-0000-0000-0000-000000000000"
      (setNotBefore t3 (SecondsAgo 30)
      (setJti "00000000-0000-0000-0000-000000000000"
      (setIssuer (AUTH_RAOIDC_ISSUER env)
      (setIssuedAt t2
      (setExpirationTime t1 (Minutes 20)
      (setAudience (AUTH_RAOIDC_CLIENT_ID env)
      (setProtectedHeader (mkJWSHeader "RS256" generatePublicKeyId)
      (newSignJWT []))))))))) in
  let tok := CompactEncrypt signedAccessToken (mkJWEHeader "RSA-OAEP-256" "A256GCM")
                            (AUTH_SERVER_PUBLIC_KEY env) in
  run* logMinted Access tok in ret tok.

Definition generateIdToken (locale nonce : string) : M JWE :=
  let* t1 := readClock 0 in
  let* t2 := readClock 1 in
  let* t3 := readClock 2 in
  let idTokenClaims := [("locale", locale); ("nonce", nonce)] in
  let signedIdToken :=
    sign (AUTH_SERVER_PRIVATE_KEY env)
      (setSubject "00000000-0000-0000-0000-000000000000"
      (setNotBefore t3 (SecondsAgo 30)
      (setJti "00000000-0000-0000-0000-000000000000"
      (setIssuer (AUTH_RAOIDC_ISSUER env)
      (setIssuedAt t2
      (setExpirationTime t1 (Minutes 20)
      (setAudience (AUTH_RAOIDC_CLIENT_ID env)
      (setProtectedHeader (mkJWSHeader "RS256" generatePublicKeyId)
      (newSignJWT idTokenClaims))))))))) in
  let tok := CompactEncrypt signedIdToken (mkJWEHeader "RSA-OAEP-256" "A256GCM")
                            (AUTH_CLIENT_PUBLIC_KEY env) in
  run* logMinted Id tok in ret tok.

Definition generateUserinfoToken (birthdate locale sin : string) : M JWE :=
  let* t1 := readClock 0 in
  let* t2 := readClock 1 in
  let* t3 := readClock 2 in
  let keyId := generatePublicKeyId in
  let userInfoTokenClaims := [("birthdate", birthdate); ("locale", locale); ("sin", sin)] in
  let userinfoToken :=
    sign (AUTH_SERVER_PRIVATE_KEY env)
      (setSubject "00000000-0000-0000-0000-000000000000"
      (setNotBefore t3 (SecondsAgo 30)
      (setJti "00000000-0000-0000-0000-000000000000"
      (setIssuer (AUTH_RAOIDC_ISSUER env)
      (setIssuedAt t2
      (setExpirationTime t1 (Minutes 20)
      (setAudience (AUTH_RAOIDC_CLIENT_ID env)
      (setProtectedHeader (mkJWSHeader "RS256" keyId)
      (newSignJWT userInfoTokenClaims))))))))) in
  let tok := CompactEncrypt userinfoToken (mkJWEHeader "RSA-OAEP-256" "A256GCM")
                            (AUTH_CLIENT_PUBLIC_KEY env) in
  run* logMinted Userinfo tok in ret tok.

Definition handleAuthorizeRequest (request : Request) : M (Completion JWE) :=
  let allowedRedirectUris := getAllowedCallbacks request in
  let clientId := params_get (searchParams request) "client_id" in
  let nonce := params_get (searchParams request) "nonce" in
  let redirectUri := params_get (searchParams request) "redirect_uri" in
  let scope := params_get (searchParams request) "scope" in
  let state := params_get (searchParams request) "state" in
  if strictNe clientId (AUTH_RAOIDC_CLIENT_ID env) then
    ret (Normal (errorResponse "invalid_client_id"))
  else match truthy nonce with
  | None => ret (Normal (errorResponse "invalid_nonce"))
  | Some nonce =>
  if match truthy redirectUri with
     | Some uri => negb (includes allowedRedirectUris uri)
     | None => false
     end then
    ret (Normal (errorResponse "invalid_redirect_uri"))
  else match truthy scope with
  | None => ret (Normal (errorResponse "invalid_scope"))
  | Some _ =>
  match truthy state with
  | None => ret (Normal (errorResponse "invalid_state"))
  | Some state =>
    let* authCode := randomString 32 in
    let* accessToken := generateAccessToken nonce in
    let* idToken := generateIdToken "en-CA" nonce in
    run* cacheSet authCode (mkTokenSet accessToken idToken) in
    run* setTimeout authCode 30000 in
    ret (redirect (interpolate redirectUri +:+ "?code=" +:+ authCode +:+ "&state=" +:+ state))
  end end end.

Definition handleTokenRequest (request : Request) : M (Response JWE) :=
  let allowedRedirectUris := getAllowedCallbacks request in
  let clientAssertion := params_get (formData request) "client_assertion" in
  let clientAssertionType := params_get (formData request) "client_assertion_type" in
  let clientId := params_get (formData request) "client_id" in
  let authCode := params_get (formData request) "code" in
  let grantType := params_get (formData request) "grant_type" in
  let redirectUri := params_get (formData request) "redirect_uri" in
  if strictNe clientAssertionType "urn:ietf:params:oauth:client-assertion-type:jwt-bearer" then
    ret (errorResponse "invalid_client_assertion_type")
  else if strictNe clientId (AUTH_RAOIDC_CLIENT_ID env) then
    ret (errorResponse "invalid_client")
  else if negb (isTruthy clientAssertion) then
    ret (errorResponse "invalid_client_assertion")
  else match truthy authCode with
  | None => ret (errorResponse "invalid_code")
  | Some authCode =>
  if strictNe grantType "authorization_code" then
    ret (errorResponse "invalid_grant_type")
  else if match truthy redirectUri with
     | Some uri => negb (includes allowedRedirectUris uri)
     | None => false
     end then
    ret (errorResponse "invalid_redirect_uri")
  else
    let* tokenSet := cacheGet authCode in
    run* setTimeout authCode 30000 in
    match tokenSet with
    | None => ret (errorResponse "invalid_auth_code")
    | Some tokenSet =>
      ret (Response_json [("token_type", JString "Bearer");
                          ("access_token", JCompact (accessToken tokenSet));
                          ("id_token", JCompact (idToken tokenSet));
                          ("expires_in", JNumber (5 * 60))] OK)
    end
  end.

Definition handleUserinfoRequest (request : Request) : M (Response JWE) :=
  let birthdate := default "2000-01-01" (params_get (searchParams request) "birthdate") in
  let locale := default "en-CA" (params_get (searchParams request) "locale") in
  let sin := default "00000000" (params_get (searchParams request) "sin") in
  let* userinfo_token := generateUserinfoToken birthdate locale sin in
  ret (Response_json [("userinfo_token", JCompact userinfo_token)] OK).

(** What reaches the provider: a GET to [/authorize], a POST to [/token]
    or a GET to [/userinfo] arriving when the clock shows [t], or time
    passing. *)
Inductive Event : Type :=
| GetAuthorize (t : Z) (request : Request)
| PostToken (t : Z) (request : Request)
| GetUserinfo (t : Z) (request : Request)
| Tick (t : Z).

(** One event: the loop catches up with the clock, then the handler runs.
    The first component is the response the event is answered with, if
    any: time passing has none, and neither has a handler that throws. *)
Definition step (ev : Event) (w : World) : option (Response JWE) * World :=
  match ev with
  | GetAuthorize t request =>
      let (c, w') := handleAuthorizeRequest request (advance t w) in
      (match c with Normal r => Some r | TypeError => None end, w')
  | PostToken t request =>
      let (r, w') := handleTokenRequest request (advance t w) in (Some r, w')
  | GetUserinfo t request =>
      let (r, w') := handleUserinfoRequest request (advance t w) in (Some r, w')
  | Tick t => (None, advance t w)
  end.

Fixpoint run (evs : list Event) (w : World) : World :=
  match evs with
  | [] => w
  | ev :: rest => run rest (snd (step ev w))
  end.

(** The code an event stores tokens under, if it stores any: a GET to
    [/authorize] that draws from the random source stores them under the
    32 characters it draws, whether or not the redirect then goes
    through. *)
Definition issues (ev : Event) (w : World) : option string :=
  match ev with
  | GetAuthorize t request =>
      if (rngPos (snd (handleAuthorizeRequest request (advance t w))) =? rngPos w)%nat
      then None
      else Some (draw (rngPos w) 32)
  | _ => None
  end.

(** The codes a run issues, in order. *)
Fixpoint issued (evs : list Event) (w : World) : list string :=
  match evs with
  | [] => []
  | ev :: rest =>
      match issues ev w with
      | Some c => c :: issued rest (snd (step ev w))
      | None => issued rest (snd (step ev w))
      end
  end.

(** The responses of a run, in order. *)
Fixpoint responses (evs : list Event) (w : World) : list (option (Response JWE)) :=
  match evs with
  | [] => []
  | ev :: rest => fst (step ev w) :: responses rest (snd (step ev w))
  end.

End Provider.

(** *** The validation order in the words of the specification *)

(** The first element of [order] on which [holds] fails. *)
Definition firstFailing {A} (holds : A -> bool) (order : list A) : option A :=
  List.find (fun chk => negb (holds chk)) order.

(** A parameter is present when it has a value and the value is not the
    empty string. *)
Definition present (v : option string) : bool :=
  match v with
  | Some s => negb (String.eqb s "")
  | None => false
  end.

(** The allow-list: the fully-qualified callback URIs of the origin. *)
Definition allowList (request : Request) : list string :=
  [origin request +:+ "/auth/callback"].

(** A [redirect_uri] passes when none is supplied or it is allow-listed. *)
Definition redirectUriAllowed (request : Request) (v : option string) : bool :=
  match v with
  | Some u => if String.eqb u "" then true else bool_decide (u ∈ allowList request)
  | None => true
  end.

Inductive AuthorizeCheck : Type :=
| AuthorizeClientId
| AuthorizeNonce
| AuthorizeRedirectUri
| AuthorizeScope
| AuthorizeState.

Definition authorizeOrder : list AuthorizeCheck :=
  [AuthorizeClientId; AuthorizeNonce; AuthorizeRedirectUri; AuthorizeScope; AuthorizeState].

Definition authorizeHolds (env : ServerEnvironment) (request : Request)
    (chk : AuthorizeCheck) : bool :=
  let q := params_get (searchParams request) in
  match chk with
  | AuthorizeClientId => bool_decide (q "client_id" = Some (AUTH_RAOIDC_CLIENT_ID env))
  | AuthorizeNonce => present (q "nonce")
  | AuthorizeRedirectUri => redirectUriAllowed request (q "redirect_uri")
  | AuthorizeScope => present (q "scope")
  | AuthorizeState => present (q "state")
  end.

Definition authorizeErrorCode (chk : AuthorizeCheck) : string :=
  match chk with
  | AuthorizeClientId => "invalid_client_id"
  | AuthorizeNonce => "invalid_nonce"
  | AuthorizeRedirectUri => "invalid_redirect_uri"
  | AuthorizeScope => "invalid_scope"
  | AuthorizeState => "invalid_state"
  end.

Inductive TokenCheck : Type :=
| TokenAssertionType
| TokenClientId
| TokenClientAssertion
| TokenCode
| TokenGrantType
| TokenRedirectUri.

Definition tokenOrder : list TokenCheck :=
  [TokenAssertionType; TokenClientId; TokenClientAssertion; TokenCode;
   TokenGrantType; TokenRedirectUri].

Definition JWT_BEARER : string := "urn:ietf:params:oauth:client-assertion-type:jwt-bearer".

Definition tokenHolds (env : ServerEnvironment) (request : Request)
    (chk : TokenCheck) : bool :=
  let f := params_get (formData request) in
  match chk with
  | TokenAssertionType => bool_decide (f "client_assertion_type" = Some JWT_BEARER)
  | TokenClientId => bool_decide (f "client_id" = Some (AUTH_RAOIDC_CLIENT_ID env))
  | TokenClientAssertion => present (f "client_assertion")
  | TokenCode => present (f "code")
  | TokenGrantType => bool_decide (f "grant_type" = Some "authorization_code")
  | TokenRedirectUri => redirectUriAllowed request (f "redirect_uri")
  end.

Definition tokenErrorCode (chk : TokenCheck) : string :=
  match chk with
  | TokenAssertionType => "invalid_client_assertion_type"
  | TokenClientId => "invalid_client"
  | TokenClientAssertion => "invalid_client_assertion"
  | TokenCode => "invalid_code"
  | TokenGrantType => "invalid_grant_type"
  | TokenRedirectUri => "invalid_redirect_uri"
  end.

(** The body of a successful token exchange. *)
Definition bearerBody (tokens : TokenSet) : Json JWE :=
  [("token_type", JString "Bearer");
   ("access_token", JCompact (accessToken tokens));
   ("id_token", JCompact (idToken tokens));
   ("expires_in", JNumber 300)].

(** The claims every minted token has to carry. *)
Definition envelopeOk (env : ServerEnvironment) (p : JWTPayload) : Prop :=
  exists i, iat p = Some i
    /\ exp p = Some (i + 20 * 60)
    /\ nbf p = Some (i - 30)
    /\ aud p = Some (AUTH_RAOIDC_CLIENT_ID env)
    /\ iss p = Some (AUTH_RAOIDC_ISSUER env).

(** The envelope up to the second a clock reading may be later than the
    one before: [exp] is [iat] plus 20 minutes or a second less, [nbf] is
    [iat] minus 30 seconds or a second more. *)
Definition envelopeNear (env : ServerEnvironment) (p : JWTPayload) : Prop :=
  exists i e n, iat p = Some i /\ exp p = Some e /\ nbf p = Some n
    /\ (i + 1199 <= e)%Z /\ (e <= i + 1200)%Z
    /\ (i - 30 <= n)%Z /\ (n <= i - 29)%Z
    /\ aud p = Some (AUTH_RAOIDC_CLIENT_ID env)
    /\ iss p = Some (AUTH_RAOIDC_ISSUER env).

(** The three readings of every builder are taken in order and within one
    second. *)
Definition steady (skew : nat -> Z) : Prop :=
  forall n : nat,
    (skew (3 * n)%nat <= skew (3 * n + 1)%nat)%Z
    /\ (skew (3 * n + 1)%nat <= skew (3 * n + 2)%nat)%Z
    /\ (skew (3 * n + 2)%nat < skew (3 * n)%nat + 1000)%Z.

(** What the envelope implies: the token expires after it becomes valid,
    and it is valid when issued. *)
Definition envelopeOrdered (p : JWTPayload) : Prop :=
  exists i e n, iat p = Some i /\ exp p = Some e /\ nbf p = Some n
    /\ (n < e)%Z /\ (n <= i)%Z.

(** The entry under [c] is on its way out: its deletion is pending for
    the time [d] still ahead, or [d] has passed and the entry is gone. *)
Definition expiring (c : string) (d : Z) (w : World) : Prop :=
  (mkTimer d c ∈ timers w /\ (now w < d)%Z)
  \/ (tokenCache w !! c = None /\ (d <= now w)%Z).

(** The entry under [c] is [v] until [d]: the clock is within 30 seconds
    before [d] or beyond, and while it is before [d] the cache holds [v]
    under [c] and no pending timer deletes [c] before [d]. *)
Definition holding (c : string) (d : Z) (v : option TokenSet) (w : World) : Prop :=
  (d - 30000 <= now w)%Z
  /\ ((now w < d)%Z ->
      tokenCache w !! c = v
      /\ Forall (fun tm => target tm = c -> (d <= due tm)%Z) (timers w)).

(** A process that starts at time [t] with an empty cache. *)
Definition boot (t : Z) : World := mkWorld t ∅ [] 0 [].

(** The claims inside a token. *)
Definition claimsOf (tok : JWE) : JWTPayload := jws_payload (jwe_plaintext tok).

End Raoidc.

(* ================================================================== *)
(** ** The token codec of the design *)
(* ================================================================== *)

Module TokenCodec.

Import Jose Raoidc.

(** The key a token of the purpose is wrapped for. *)
Definition encryptionTarget (env : ServerEnvironment) (p : TokenKind) : PublicKey :=
  match p with
  | Access => AUTH_SERVER_PUBLIC_KEY env
  | Id | Userinfo => AUTH_CLIENT_PUBLIC_KEY env
  end.

(** The private key of the intended consumer of a token of the purpose. *)
Definition decryptionKey (env : ServerEnvironment) (p : TokenKind) : PrivateKey :=
  match p with
  | Access => AUTH_SERVER_PRIVATE_KEY env
  | Id | Userinfo => AUTH_CLIENT_PRIVATE_KEY env
  end.

(** The claims a builder of the provider signs when its three clock
    readings are [t1] (for [exp]), [t2] (for [iat]) and [t3] (for [nbf]),
    in milliseconds, and [extra] is the object given to [new SignJWT]. *)
Definition stamped (env : ServerEnvironment) (t1 t2 t3 : Z) (extra : list (string * string))
    : JWTPayload :=
  mkPayload (Some (AUTH_RAOIDC_ISSUER env)) (Some (AUTH_RAOIDC_CLIENT_ID env))
            (Some "00000000-0000-0000-0000-000000000000")
            (Some "00000000-0000-0000-0000-000000000000")
            (Some (epoch t2)) (Some (epoch t1 + 1200)) (Some (epoch t3 - 30))
            extra.

(** Modelled from the spec: [sign_and_encrypt(claims, purpose)] of the
    design (4.1) is the pattern the three generators share: sign with the
    issuer's private signing key under a key id that is the hash of the
    issuer's public signing key, then wrap for the purpose's key. *)
Definition sign_and_encrypt (env : ServerEnvironment) (claims : JWTPayload)
    (purpose : TokenKind) : JWE :=
  CompactEncrypt
    (mkJWS (Some (mkJWSHeader "RS256" (MD5 (AUTH_SERVER_PUBLIC_KEY env))))
           claims (AUTH_SERVER_PRIVATE_KEY env))
    (mkJWEHeader "RSA-OAEP-256" "A256GCM")
    (encryptionTarget env purpose).

(** Modelled from the spec: a token is expired when [exp] is in the past
    and not yet valid when [nbf] is in the future (4.1); an unset claim is
    not checked.  [nowSec] is the verifier's clock in seconds. *)
Definition claimsValidAt (nowSec : Z) (claims : JWTPayload) : bool :=
  match exp claims with Some e => (nowSec <=? e)%Z | None => true end
  && match nbf claims with Some n => (n <=? nowSec)%Z | None => true end.

(** Modelled from the spec: the decrypting half of the codec lives in
    [app/.server/auth/raoidc-client], which is not part of the sources at
    hand.  Per the design (4.1) it fails on a decryption failure, on a
    signature mismatch and on expired or not-yet-valid claims, and
    otherwise yields the claims. *)
Definition decrypt_with (key : PrivateKey) (issuerKey : PublicKey) (nowSec : Z)
    (tok : JWE) : option JWTPayload :=
  match compactDecrypt tok key with
  | None => None
  | Some jws =>
      if verifies jws issuerKey && claimsValidAt nowSec (jws_payload jws)
      then Some (jws_payload jws)
      else None
  end.

(** Modelled from the spec: [decrypt_and_verify(token, expected_purpose)]
    opens the token with the private key of the purpose's consumer and
    checks it against the issuer's public signing key. *)
Definition decrypt_and_verify (env : ServerEnvironment) (nowSec : Z) (tok : JWE)
    (purpose : TokenKind) : option JWTPayload :=
  decrypt_with (decryptionKey env purpose) (AUTH_SERVER_PUBLIC_KEY env) nowSec tok.

(** An entry of the log of minted tokens that the codec produced for the
    purpose it is logged under. *)
Definition fromCodec (env : ServerEnvironment) (kt : TokenKind * JWE) : Prop :=
  exists t1 t2 t3 extra, kt.2 = sign_and_encrypt env (stamped env t1 t2 t3 extra) kt.1.

(** An entry of the log that a builder produced from three consecutive
    clock readings of a process whose readings are off by [skew]. *)
Definition fromBuilder (env : ServerEnvironment) (skew : nat -> Z)
    (kt : TokenKind * JWE) : Prop :=
  exists (t : Z) (n : nat) (extra : list (string * string)),
    kt.2 = sign_and_encrypt env
             (stamped env (t + skew (3 * n)%nat) (t + skew (3 * n + 1)%nat)
                      (t + skew (3 * n + 2)%nat) extra)
             kt.1.

(** Both configured key pairs match. *)
Definition keysMatch (env : ServerEnvironment) : Prop :=
  publicOf (AUTH_SERVER_PRIVATE_KEY env) = AUTH_SERVER_PUBLIC_KEY env
  /\ publicOf (AUTH_CLIENT_PRIVATE_KEY env) = AUTH_CLIENT_PUBLIC_KEY env.

End TokenCodec.

(* ================================================================== *)
(** ** The relying party's callback: [routes/auth/callback.tsx] *)
(* ================================================================== *)

Module Callback.

Import Http.

(** [session.loginState]. *)
Record LoginState : Type := mkLoginState {
  codeVerifier : string;
  nonce : string;
  returnUrl : option string;
  state : string
}.

(** [session.stubloginState]. *)
Record StubloginState : Type := mkStubloginState {
  birthdate : option string;
  locale : option string;
  sin : option string
}.

(** One entry of [session.letterState]. *)
Record Letter : Type := mkLetter {
  id : string;
  date : string;
  letterTypeId : string
}.

(** A call on the telemetry span. *)
Inductive SpanCall : Type :=
| SetAttribute (key value : string)
| AddEvent (name : string)
| RecordException
| SetStatusError
| SpanEnd.

Section Handler.

(** The decoded claims of the id token and of the userinfo token. *)
Variables IdTokenClaims UserinfoTokenClaims : Type.

(** Whatever the RAOIDC client talks to, and what it throws. *)
Variables Net Err : Type.

(** [session.authState]. *)
Record AuthState : Type := mkAuthState {
  accessToken : string;
  idTokenClaims : IdTokenClaims;
  userinfoTokenClaims : UserinfoTokenClaims
}.

(** [SessionData]: every property may be missing. *)
Record Session : Type := mkSession {
  authState : option AuthState;
  letterState : option (list Letter);
  loginState : option LoginState;
  stubloginState : option StubloginState
}.

(** The value [raoidcClient.handleCallbackRequest] resolves to. *)
Record TokenSet : Type := mkTokenSet {
  ts_accessToken : string;
  ts_idToken : IdTokenClaims;
  ts_userinfoToken : UserinfoTokenClaims
}.

(** The arguments of [raoidcClient.handleCallbackRequest]. *)
Record CallbackArgs : Type := mkCallbackArgs {
  arg_request : Request;
  arg_codeVerifier : string;
  arg_nonce : string;
  arg_state : string;
  arg_callbackUrl : string;
  arg_opts : StubloginState
}.

(** [getRaoidcClient()] and [raoidcClient.handleCallbackRequest(...)]
    live in [app/.server/auth/raoidc-client]; both talk to the provider
    and either may throw. *)
Variable getRaoidcClient : Net -> (Err + unit) * Net.
Variable handleCallbackRequest : CallbackArgs -> Net -> (Err + TokenSet) * Net.

(** [serverEnvironment.AUTH_ENABLE_STUB_LOGIN]. *)
Variable AUTH_ENABLE_STUB_LOGIN : bool.

(** [error instanceof Response], and the correlation id of an error that
    has one. *)
Variable isResponse : Err -> bool.
Variable getCorrelationId : Err -> option string.

(** How a handler ends. *)
Inductive Outcome : Type :=
| Returned (r : Response unit)
| Threw (e : Err).

(** What a run of the handler leaves behind. *)
Record Result : Type := mkResult {
  outcome : Outcome;
  session' : Session;
  net' : Net;
  span : list SpanCall
}.

(** [handleSpanException(error, span)]: an error that is not a response
    is recorded on the span. *)
Definition handleSpanException (e : Err) : list SpanCall :=
  if isResponse e then []
  else [SetAttribute "correlationId" (default "N/A" (getCorrelationId e));
        RecordException; SetStatusError].

(** [withSpan(name, fn)], applied to what [fn] leaves behind: a returned
    value passes through, a thrown error goes through
    [handleSpanException] and is thrown again; the span ends either way. *)
Definition withSpan (r : Result) : Result :=
  match outcome r with
  | Returned _ => mkResult (outcome r) (session' r) (net' r) (span r ++ [SpanEnd])
  | Threw e =>
      mkResult (outcome r) (session' r) (net' r) (span r ++ handleSpanException e ++ [SpanEnd])
  end.

Definition handleCallback (request : Request) (session : Session) (net : Net) : Result :=
  withSpan
    (let s0 := [SetAttribute "request_url" (href request)] in
     match loginState session with
     | None =>
         mkResult (Returned (Response_json [("message", JString "Invalid login state")] BAD_REQUEST))
                  session net (s0 ++ [AddEvent "login_state.invalid"])
     | Some ls =>
         let returnUrl := default (origin request +:+ "/en") (returnUrl ls) in
         let s1 := (s0 ++ [SetAttribute "return_url" returnUrl; AddEvent "token_exchange.start"])%list in
         match getRaoidcClient net with
         | (inl e, net1) => mkResult (Threw e) session net1 s1
         | (inr _, net1) =>
             let opts :=
               if AUTH_ENABLE_STUB_LOGIN
               then mkStubloginState (stubloginState session ≫= birthdate)
                                     (stubloginState session ≫= locale)
                                     (stubloginState session ≫= sin)
               else mkStubloginState None None None in
             match handleCallbackRequest
                     (mkCallbackArgs request (codeVerifier ls) (nonce ls) (state ls)
                                     (origin request +:+ "/auth/callback") opts) net1 with
             | (inl e, net2) => mkResult (Threw e) session net2 s1
             | (inr tokenSet, net2) =>
                 mkResult (Returned (redirectUrl returnUrl))
                          (mkSession (Some (mkAuthState (ts_accessToken tokenSet)
                                                        (ts_idToken tokenSet)
                                                        (ts_userinfoToken tokenSet)))
                                     (letterState session) None None)
                          net2 (s1 ++ [AddEvent "token_exchange.end"])
             end
         end
     end).

End Handler.

End Callback.

(* ================================================================== *)
(** ** Sample data *)
(* ================================================================== *)

Module Samples.

Import Http Jose Raoidc.

Definition env : ServerEnvironment :=
  mkEnv true (PKCS8 "client") (SPKI "client") (PKCS8 "server") (SPKI "server")
        "00000000-0000-0000-0000-000000000000" "MOCK_RAOIDC".

(** A random source that cycles through the lower-case letters. *)
Definition entropy (n : nat) : ascii := ascii_of_nat (97 + n mod 26).

(** A clock that does not move while a token is built. *)
Definition skew (n : nat) : Z := 0.

(** A fresh process at time 0. *)
Definition world : World := mkWorld 0 ∅ [] 0 [].

Definition authorizeUrl : string :=
  "https://app.example/auth/raoidc/authorize".

(** The authorize request of the end-to-end scenario. *)
Definition authorizeRequest : Request :=
  mkRequest authorizeUrl "https://app.example"
    [("client_id", "00000000-0000-0000-0000-000000000000"); ("nonce", "n1");
     ("redirect_uri", "https://app.example/auth/callback");
     ("scope", "openid"); ("state", "s1")] [].

(** The same request without [redirect_uri]. *)
Definition authorizeNoRedirect : Request :=
  mkRequest authorizeUrl "https://app.example"
    [("client_id", "00000000-0000-0000-0000-000000000000"); ("nonce", "n1");
     ("scope", "openid"); ("state", "s1")] [].

(** The same request from an unknown client. *)
Definition authorizeWrongClient : Request :=
  mkRequest authorizeUrl "https://app.example"
    [("client_id", "WRONG"); ("nonce", "n1");
     ("redirect_uri", "https://app.example/auth/callback");
     ("scope", "openid"); ("state", "s1")] [].

(** The code the sample source hands out first. *)
Definition code : string := "abcdefghijklmnopqrstuvwxyzabcdef".

(** A token request that presents [c] and passes validation. *)
Definition tokenRequest (c : string) : Request :=
  mkRequest "https://app.example/auth/raoidc/token" "https://app.example" []
    [("grant_type", "authorization_code"); ("code", c);
     ("redirect_uri", "https://app.example/auth/callback");
     ("client_id", "00000000-0000-0000-0000-000000000000");
     ("client_assertion", "assertion");
     ("client_assertion_type", JWT_BEARER)].

(** A token request with the wrong grant type. *)
Definition tokenWrongGrant : Request :=
  mkRequest "https://app.example/auth/raoidc/token" "https://app.example" []
    [("grant_type", "password"); ("code", code);
     ("client_id", "00000000-0000-0000-0000-000000000000");
     ("client_assertion", "assertion");
     ("client_assertion_type", JWT_BEARER)].

(** Claims that are valid from second 70 to second 1300. *)
Definition claims : JWTPayload :=
  mkPayload (Some "MOCK_RAOIDC") (Some "00000000-0000-0000-0000-000000000000")
            (Some "subject") (Some "id") (Some 100) (Some 1300) (Some 70)
            [("nonce", "n1")].

(** A callback request and an anonymous session. *)
Definition callbackRequest : Request :=
  mkRequest "https://app.example/auth/callback?code=abc&state=s1" "https://app.example"
    [("code", "abc"); ("state", "s1")] [].

Definition anonymous : Callback.Session unit unit :=
  Callback.mkSession unit unit None None None None.

(** A client whose every call succeeds and counts as one network call. *)
Definition getClient (n : nat) : (string + unit) * nat := (inr tt, S n).

Definition exchange (a : Callback.CallbackArgs) (n : nat)
    : (string + Callback.TokenSet unit unit) * nat :=
  (inr (Callback.mkTokenSet unit unit "access" tt tt), S n).

End Samples.

(* ================================================================== *)
(** ** The provider's other endpoints and its dispatchers *)
(* ================================================================== *)

Module RaoidcRoutes.

Import Http Jose Raoidc.

(** The discovery document of [handleMetadataRequest]. *)
Record Metadata : Type := mkMetadata {
  authorization_endpoint : string;
  claims_supported : list string;
  id_token_signing_alg_values_supported : list string;
  issuer : string;
  jwks_uri : string;
  response_types_supported : list string;
  scopes_supported : list string;
  subject_types_supported : list string;
  token_endpoint_auth_methods_supported : list string;
  token_endpoint : string;
  userinfo_endpoint : string
}.

(** One entry of the key set of [handleJwksRequest]: [alg], [kid], [use]
    and the exported key material ([...jwk]). *)
Record Jwk : Type := mkJwk {
  jwk_alg : string;
  jwk_kid : Digest;
  jwk_use : string;
  jwk_key : PublicKey
}.

(** What the bodies of the module's responses can be. *)
Inductive Body : Type :=
| BEmpty
| BNull
| BTrue
| BText (s : string)
| BObject (j : Json JWE)
| BMetadata (m : Metadata)
| BJwks (keys : list Jwk).

Record Reply : Type := mkReply {
  reply_status : Z;
  reply_body : Body;
  reply_location : option string
}.

(** A response of the handlers of the module [Raoidc] as a reply; a
    redirect has no body. *)
Definition asReply (r : Response JWE) : Reply :=
  mkReply (status r)
          (match body r with Some j => BObject j | None => BEmpty end)
          (location r).

(** How a dispatcher ends: it returns a response, throws one, or fails
    with the [TypeError] of a handler. *)
Inductive Outcome : Type :=
| Returned (r : Reply)
| Thrown (r : Reply)
| Failed.

(** Modelled from the spec: [HttpStatusCodes.NOT_FOUND] of
    [app/utils/http-status-codes], which is not part of the sources at
    hand; the spec gives 404 for a disabled or unknown endpoint. *)
Definition NOT_FOUND : Z := 404.

(** A template literal interpolates [undefined] as "undefined". *)
Definition interpolateUndefined (v : option string) : string :=
  match v with
  | Some s => s
  | None => "undefined"
  end.

(** [params['*'] === name]. *)
Definition isEndpoint (endpoint : option string) (name : string) : bool :=
  match endpoint with
  | Some e => String.eqb e name
  | None => false
  end.

Section Routes.

Variable env : ServerEnvironment.
Variable entropy : nat -> ascii.
Variable skew : nat -> Z.

Definition handleMetadataRequest (request : Request) : Reply :=
  let baseUrl := resolveUrl "/auth/raoidc" (origin request) in
  mkReply OK
    (BMetadata
       (mkMetadata
          (baseUrl +:+ "/authorize")
          ["aud"; "email"; "exp"; "iat"; "iss"; "name"; "sub"]
          ["RS256"]
          (AUTH_RAOIDC_ISSUER env)
          (baseUrl +:+ "/.well-known/jwks")
          ["code id_token"; "id_token token"]
          ["openid"; "profile"; "email"]
          ["public"]
          ["client_secret_post"]
          (baseUrl +:+ "/token")
          (baseUrl +:+ "/userinfo")))
    None.

Definition handleJwksRequest (request : Request) : Reply :=
  let key := AUTH_SERVER_PUBLIC_KEY env in
  mkReply OK (BJwks [mkJwk "RS256" (generatePublicKeyId env) "sig" key]) None.

Definition handleValidateSession (request : Request) : Reply :=
  mkReply OK BTrue None.

Definition notFound (endpoint : option string) : Reply :=
  mkReply NOT_FOUND
          (BText ("OIDC endpoint " +:+ interpolateUndefined endpoint +:+ " not found"))
          None.

(** The POST dispatcher of the route; [endpoint] is [params['*']]. *)
Definition action (endpoint : option string) (request : Request) : M Outcome :=
  if negb (AUTH_ENABLE_STUB_LOGIN env) then
    ret (Thrown (mkReply NOT_FOUND BNull None))
  else if isEndpoint endpoint "token" then
    let* r := handleTokenRequest env request in
    ret (Returned (asReply r))
  else
    ret (Thrown (notFound endpoint)).

(** The GET dispatcher of the route. *)
Definition loader (endpoint : option string) (request : Request) : M Outcome :=
  if negb (AUTH_ENABLE_STUB_LOGIN env) then
    ret (Thrown (mkReply NOT_FOUND BNull None))
  else if isEndpoint endpoint ".well-known/openid-configuration" then
    ret (Returned (handleMetadataRequest request))
  else if isEndpoint endpoint ".well-known/jwks" then
    ret (Returned (handleJwksRequest request))
  else if isEndpoint endpoint "authorize" then
    let* c := handleAuthorizeRequest env entropy skew request in
    ret (match c with
         | Normal r => Returned (asReply r)
         | TypeError => Failed
         end)
  else if isEndpoint endpoint "userinfo" then
    let* r := handleUserinfoRequest env skew request in
    ret (Returned (asReply r))
  else if isEndpoint endpoint "validatesession" then
    ret (Returned (handleValidateSession request))
  else
    ret (Thrown (notFound endpoint)).

End Routes.

(** The endpoints each dispatcher serves. *)
Definition loaderEndpoints : list string :=
  [".well-known/openid-configuration"; ".well-known/jwks"; "authorize";
   "userinfo"; "validatesession"].

Definition actionEndpoints : list string := ["token"].

Definition isReturned (o : Outcome) : bool :=
  match o with
  | Returned _ => true
  | _ => false
  end.

(** The dispatcher handed the request to a handler: it did not throw a
    response of its own. *)
Definition reachedHandler (o : Outcome) : bool :=
  match o with
  | Thrown _ => false
  | _ => true
  end.

(** The module's state is where it was, apart from the clock. *)
Definition untouched (w w' : World) : Prop :=
  tokenCache w' = tokenCache w /\ timers w' = timers w
  /\ rngPos w' = rngPos w /\ minted w' = minted w.

(** Every pending timer is due within the next 30 seconds, and every code
    in the cache has a pending timer aimed at it. *)
Definition scheduled (w : World) : Prop :=
  Forall (fun tm => (now w < due tm)%Z /\ (due tm <= now w + 30000)%Z) (timers w)
  /\ forall c : string, is_Some (tokenCache w !! c) ->
       exists tm, tm ∈ timers w /\ target tm = c.

(** Every pair in the cache is an access token and an id token of the
    log. *)
Definition backed (w : World) : Prop :=
  forall (c : string) (pair : TokenSet),
    tokenCache w !! c = Some pair ->
    (Access, accessToken pair) ∈ minted w /\ (Id, idToken pair) ∈ minted w.

(** Where an authorize redirect can point: the callback of the request's
    own origin, or the text that stands for a missing or empty
    [redirect_uri]. *)
Definition redirectTargets (request : Request) : list string :=
  [origin request +:+ "/auth/callback"; "null"; ""].

End RaoidcRoutes.

(* ================================================================== *)
(** ** The relying party's other routes: login, logout, [requireAuth] *)
(* ================================================================== *)

Module AuthRoutes.

Import Http.

(** A [URL] whose query is still being edited: everything before the
    query, and the query's entries. *)
Record Url : Type := mkUrl {
  url_base : string;
  url_query : list (string * string)
}.

Fixpoint params_remove (l : list (string * string)) (name : string)
    : list (string * string) :=
  match l with
  | [] => []
  | (k, v) :: rest =>
      if String.eqb k name then params_remove rest name
      else (k, v) :: params_remove rest name
  end.

(** [searchParams.set(name, value)]: the first entry of the name takes the
    value and the others of the name go; without one, the entry is
    appended. *)
Fixpoint params_set (l : list (string * string)) (name value : string)
    : list (string * string) :=
  match l with
  | [] => [(name, value)]
  | (k, v) :: rest =>
      if String.eqb k name then (k, value) :: params_remove rest name
      else (k, v) :: params_set rest name value
  end.

(** [returnTo.startsWith('/')]. *)
Definition startsWithSlash (s : string) : bool :=
  match s with
  | String c _ => Ascii.eqb c "/"
  | EmptyString => false
  end.

(** What the bodies of these routes' responses can be: none (a
    redirect), [null], a text, [true]. *)
Inductive Payload : Type :=
| PEmpty
| PNull
| PText (s : string)
| PTrue.

Record Reply : Type := mkReply {
  reply_status : Z;
  reply_payload : Payload;
  reply_location : option string
}.

(** [redirect(url)] where [url] is the serialisation of a [URL], parts of
    one, or the configured logout URL: values that [headers.set] takes as
    they are (the configured URL is assumed to be one, as its default
    is). *)
Definition replyRedirect (url : string) : Reply := mkReply FOUND PEmpty (Some url).

(** The [pathname] and [search] of a request's URL. *)
Record Location : Type := mkLocation {
  pathname : string;
  search : string
}.

Section Routes.

Variables IdTokenClaims UserinfoTokenClaims : Type.
Variables Net Err : Type.

(** What [raoidcClient.generateSigninRequest] returns. *)
Record SigninRequest : Type := mkSigninRequest {
  authUrl : Url;
  sr_codeVerifier : string;
  sr_nonce : string;
  sr_state : string
}.

(** What the routes depend on and the sources at hand do not hold: the
    RAOIDC client of [app/.server/auth/raoidc-client] (obtaining it and
    validating a session talk to the provider and may throw; a sign-in
    request draws fresh values), the two settings read from
    [serverEnvironment], the tests of [handleSpanException], the platform's
    [new URL(path, base)] (serialised; nothing when the constructor throws
    its [TypeError]) and [url.toString()], and the [sub] and [sid] of
    decoded id-token claims. *)
Record Deps : Type := mkDeps {
  getRaoidcClient : Net -> (Err + unit) * Net;
  generateSigninRequest : string -> Net -> SigninRequest * Net;
  generateSignoutRequest : string -> string -> string;
  handleValidationRequest : string -> Net -> (Err + bool) * Net;
  handleCallbackRequest :
    Callback.CallbackArgs -> Net
    -> (Err + Callback.TokenSet IdTokenClaims UserinfoTokenClaims) * Net;
  AUTH_ENABLE_STUB_LOGIN : bool;
  AUTH_RAOIDC_RASCL_LOGOUT_URL : string;
  isResponse : Err -> bool;
  getCorrelationId : Err -> option string;
  newURL : string -> string -> option string;
  urlToString : Url -> string;
  sub : IdTokenClaims -> string;
  sid : IdTokenClaims -> string
}.

Variable deps : Deps.

(** What a route can throw: an error of the client, a response, or the
    [TypeError] of the platform. *)
Inductive Thrown : Type :=
| ThrownError (e : Err)
| ThrownResponse (r : Reply)
| ThrownTypeError.

(** How a route ends. *)
Inductive Outcome : Type :=
| Returned (r : Reply)
| ReturnedUndefined
| Threw (x : Thrown).

(** What a run of a route leaves behind. *)
Record Result : Type := mkResult {
  outcome : Outcome;
  session' : Callback.Session IdTokenClaims UserinfoTokenClaims;
  net' : Net;
  span : list Callback.SpanCall
}.

(** [handleSpanException(error, span)]. *)
Definition handleSpanException (x : Thrown) : list Callback.SpanCall :=
  match x with
  | ThrownResponse _ => []
  | ThrownError e =>
      if isResponse deps e then []
      else [Callback.SetAttribute "correlationId" (default "N/A" (getCorrelationId deps e));
            Callback.RecordException; Callback.SetStatusError]
  | ThrownTypeError =>
      [Callback.SetAttribute "correlationId" "N/A";
       Callback.RecordException; Callback.SetStatusError]
  end.

(** [withSpan(name, fn)], applied to what [fn] leaves behind. *)
Definition withSpan (r : Result) : Result :=
  match outcome r with
  | Threw x =>
      mkResult (outcome r) (session' r) (net' r)
               (span r ++ handleSpanException x ++ [Callback.SpanEnd])
  | _ => mkResult (outcome r) (session' r) (net' r) (span r ++ [Callback.SpanEnd])
  end.

(** [handleLogin] of the route module [login]. *)
Definition handleLogin (request : Request)
    (session : Callback.Session IdTokenClaims UserinfoTokenClaims) (net : Net) : Result :=
  withSpan
    (let returnTo := params_get (searchParams request) "returnto" in
     let s0 := [Callback.SetAttribute "request_url" (href request);
                Callback.SetAttribute "returnto" (default "not_provided" returnTo)] in
     if match truthy returnTo with
        | Some path => negb (startsWithSlash path)
        | None => false
        end
     then
       mkResult (Returned (mkReply BAD_REQUEST (PText "Invalid returnto path") None))
                session net (s0 ++ [Callback.AddEvent "returnto.invalid"])
     else
       let s1 := (s0 ++ [Callback.AddEvent "generate_signin_request.start"])%list in
       match getRaoidcClient deps net with
       | (inl e, net1) => mkResult (Threw (ThrownError e)) session net1 s1
       | (inr _, net1) =>
           match
             match truthy returnTo with
             | Some path =>
                 match newURL deps path (origin request) with
                 | Some url => Some (Some url)
                 | None => None
                 end
             | None => Some None
             end
           with
           | None => mkResult (Threw ThrownTypeError) session net1 s1
           | Some returnUrl =>
           let (signin, net2) :=
             generateSigninRequest deps (origin request +:+ "/auth/callback") net1 in
           let authUrl' :=
             if AUTH_ENABLE_STUB_LOGIN deps then
               match truthy (params_get (searchParams request) "sin") with
               | Some requestedSin =>
                   mkUrl (url_base (authUrl signin))
                         (params_set (url_query (authUrl signin)) "sin" requestedSin)
               | None => authUrl signin
               end
             else authUrl signin in
           mkResult (Returned (replyRedirect (urlToString deps authUrl')))
                    (Callback.mkSession _ _
                       (Callback.authState _ _ session)
                       (Callback.letterState _ _ session)
                       (Some (Callback.mkLoginState (sr_codeVerifier signin) (sr_nonce signin)
                                                    returnUrl (sr_state signin)))
                       (Some (Callback.mkStubloginState
                                (params_get (searchParams request) "birthdate")
                                (params_get (searchParams request) "locale")
                                (params_get (searchParams request) "sin"))))
                    net2 (s1 ++ [Callback.AddEvent "generate_signin_request.end"])
           end
       end).

(** [handleLogout] of the route module [logout]. *)
Definition handleLogout (request : Request)
    (session : Callback.Session IdTokenClaims UserinfoTokenClaims) (net : Net) : Result :=
  withSpan
    (let s0 := [Callback.SetAttribute "request_url" (href request)] in
     match Callback.authState _ _ session with
     | None =>
         mkResult (Returned (replyRedirect (AUTH_RAOIDC_RASCL_LOGOUT_URL deps)))
                  session net (s0 ++ [Callback.AddEvent "invalid_auth_state"])
     | Some auth =>
         match getRaoidcClient deps net with
         | (inl e, net1) => mkResult (Threw (ThrownError e)) session net1 s0
         | (inr _, net1) =>
             let signoutRequest :=
               generateSignoutRequest deps
                 (sub deps (Callback.idTokenClaims _ _ auth))
                 (default "en" (params_get (searchParams request) "lang")) in
             mkResult (Returned (replyRedirect signoutRequest))
                      (Callback.mkSession _ _ None (Callback.letterState _ _ session) None None)
                      net1 s0
         end
     end).

(** [requireAuth(session, request)] of [app/.server/utils/auth-utils.ts]:
    the [authState] it returns, or what it throws. *)
Definition requireAuth (loc : Location)
    (session : Callback.Session IdTokenClaims UserinfoTokenClaims) (net : Net)
    : (Thrown + Callback.AuthState IdTokenClaims UserinfoTokenClaims) * Net :=
  match Callback.authState _ _ session with
  | None =>
      (inl (ThrownResponse
              (replyRedirect ("/auth/login?returnto=" +:+ pathname loc +:+ search loc))),
       net)
  | Some auth =>
      match getRaoidcClient deps net with
      | (inl e, net1) => (inl (ThrownError e), net1)
      | (inr _, net1) =>
          match handleValidationRequest deps (sid deps (Callback.idTokenClaims _ _ auth)) net1 with
          | (inl e, net2) => (inl (ThrownError e), net2)
          | (inr isValid, net2) =>
              if negb isValid then
                (inl (ThrownResponse
                        (replyRedirect
                           ("/auth/login?returnto=" +:+ pathname loc +:+ search loc))),
                 net2)
              else (inr auth, net2)
          end
      end
  end.

(** [action] of the route module [session-refresh]. *)
Definition sessionRefresh (loc : Location)
    (session : Callback.Session IdTokenClaims UserinfoTokenClaims) (net : Net)
    : (Thrown + Reply) * Net :=
  match requireAuth loc session net with
  | (inl x, net1) => (inl x, net1)
  | (inr _, net1) => (inr (mkReply OK PTrue None), net1)
  end.

(** [loader] of the route module [stub-login]. *)
Definition stubLoginLoader (request : Request)
    (session : Callback.Session IdTokenClaims UserinfoTokenClaims) (net : Net) : Result :=
  if negb (AUTH_ENABLE_STUB_LOGIN deps) then
    mkResult (Threw (ThrownResponse (mkReply RaoidcRoutes.NOT_FOUND PNull None)))
             session net []
  else if isTruthy (params_get (searchParams request) "sin") then
    handleLogin request session net
  else mkResult ReturnedUndefined session net [].

(** [handleCallback] of the route module [callback], on these
    dependencies. *)
Definition handleCallback (request : Request)
    (session : Callback.Session IdTokenClaims UserinfoTokenClaims) (net : Net)
    : Callback.Result IdTokenClaims UserinfoTokenClaims Net Err :=
  Callback.handleCallback _ _ _ _
    (getRaoidcClient deps) (handleCallbackRequest deps) (AUTH_ENABLE_STUB_LOGIN deps)
    (isResponse deps) (getCorrelationId deps) request session net.

End Routes.

Arguments getRaoidcClient {_ _ _ _} d.
Arguments generateSigninRequest {_ _ _ _} d.
Arguments generateSignoutRequest {_ _ _ _} d.
Arguments handleValidationRequest {_ _ _ _} d.
Arguments handleCallbackRequest {_ _ _ _} d.
Arguments AUTH_ENABLE_STUB_LOGIN {_ _ _ _} d.
Arguments AUTH_RAOIDC_RASCL_LOGOUT_URL {_ _ _ _} d.
Arguments isResponse {_ _ _ _} d.
Arguments getCorrelationId {_ _ _ _} d.
Arguments newURL {_ _ _ _} d.
Arguments urlToString {_ _ _ _} d.
Arguments sub {_ _ _ _} d.
Arguments sid {_ _ _ _} d.
Arguments ThrownError {Err} e.
Arguments ThrownResponse {Err} r.
Arguments ThrownTypeError {Err}.
Arguments Returned {Err} r.
Arguments ReturnedUndefined {Err}.
Arguments Threw {Err} x.
Arguments outcome {_ _ _ _} r.
Arguments session' {_ _ _ _} r.
Arguments net' {_ _ _ _} r.
Arguments span {_ _ _ _} r.
Arguments handleLogin {_ _ _ _} deps request session net.
Arguments handleLogout {_ _ _ _} deps request session net.
Arguments requireAuth {_ _ _ _} deps loc session net.
Arguments sessionRefresh {_ _ _ _} deps loc session net.
Arguments stubLoginLoader {_ _ _ _} deps request session net.
Arguments handleCallback {_ _ _ _} deps request session net.

End AuthRoutes.

(* ================================================================== *)
(** ** Metric names: [app/.server/utils/telemetry-utils.ts] *)
(* ================================================================== *)

Module Telemetry.

(** Characters are the code units of the string; every code unit outside
    ASCII falls, like here, outside both classes. *)
Definition between (lo hi : nat) (c : ascii) : bool :=
  (lo <=? nat_of_ascii c)%nat && (nat_of_ascii c <=? hi)%nat.

(** [[a-zA-Z]], which is also [[a-z]] under the [i] flag. *)
Definition isLetter (c : ascii) : bool := between 65 90 c || between 97 122 c.

(** [[a-zA-Z0-9_.\-/]]. *)
Definition isNameChar (c : ascii) : bool :=
  isLetter c || between 48 57 c
  || Ascii.eqb c "_" || Ascii.eqb c "." || Ascii.eqb c "-" || Ascii.eqb c "/".

Fixpoint allNameChars (s : string) : bool :=
  match s with
  | EmptyString => true
  | String c rest => isNameChar c && allNameChars rest
  end.

(** [/^[a-z][a-z0-9_.\-/]{0,254}$/i.test(name)]. *)
Definition METRIC_NAME_REGEX_test (name : string) : bool :=
  match name with
  | EmptyString => false
  | String c rest => isLetter c && allNameChars rest && (String.length rest <=? 254)%nat
  end.

(** [.replaceAll(/[^a-zA-Z0-9_.\-/]/g, '_')]. *)
Fixpoint replaceInvalid (s : string) : string :=
  match s with
  | EmptyString => EmptyString
  | String c rest => String (if isNameChar c then c else "_"%char) (replaceInvalid rest)
  end.

(** [.replace(/^[^a-zA-Z]+/, '')]. *)
Fixpoint stripLeading (s : string) : string :=
  match s with
  | EmptyString => EmptyString
  | String c rest => if isLetter c then s else stripLeading rest
  end.

(** [.slice(0, n)]. *)
Fixpoint slice0 (n : nat) (s : string) : string :=
  match n, s with
  | S m, String c rest => String c (slice0 m rest)
  | _, _ => EmptyString
  end.

Definition sanitizeMetricName (metricName : string) : string :=
  if METRIC_NAME_REGEX_test metricName then metricName
  else
    let sanitized := stripLeading (replaceInvalid metricName) in
    let trimmed := slice0 255 sanitized in
    trimmed.

(** Does the string hold a letter? *)
Fixpoint hasLetter (s : string) : bool :=
  match s with
  | EmptyString => false
  | String c rest => isLetter c || hasLetter rest
  end.

End Telemetry.

(* ================================================================== *)
(** ** More sample data *)
(* ================================================================== *)

Module MoreSamples.

Import Http Jose Raoidc.

(** The sample configuration with the stub login switched off. *)
Definition envOff : ServerEnvironment :=
  mkEnv false (PKCS8 "client") (SPKI "client") (PKCS8 "server") (SPKI "server")
        "00000000-0000-0000-0000-000000000000" "MOCK_RAOIDC".

(** Dependencies for the relying party's routes: the network is a count
    of the calls made, decoded id-token claims are a pair of [sub] and
    [sid], decoded userinfo claims are the SIN; every call succeeds. *)
Definition deps : AuthRoutes.Deps (string * string) string nat string :=
  AuthRoutes.mkDeps _ _ _ _
    (fun n => (inr tt, S n))
    (fun callbackUrl n =>
       (AuthRoutes.mkSigninRequest
          (AuthRoutes.mkUrl "https://idp.example/authorize" [("redirect_uri", callbackUrl)])
          "verifier" "n1" "s1",
        S n))
    (fun sub lang => "https://idp.example/logout?sub=" +:+ sub +:+ "&lang=" +:+ lang)
    (fun sid n => (inr true, S n))
    (fun args n =>
       (inr (Callback.mkTokenSet _ _ "access" ("subject", "session") "800000002"), S n))
    true
    "https://rascl.example/logout"
    (fun _ => false)
    (fun _ => None)
    (fun path base => Some (base +:+ path))
    (fun url => AuthRoutes.url_base url)
    fst
    snd.

(** The same with a provider that cannot be reached. *)
Definition depsDown : AuthRoutes.Deps (string * string) string nat string :=
  AuthRoutes.mkDeps _ _ _ _
    (fun n => (inl "unreachable", S n))
    (AuthRoutes.generateSigninRequest deps)
    (AuthRoutes.generateSignoutRequest deps)
    (AuthRoutes.handleValidationRequest deps)
    (AuthRoutes.handleCallbackRequest deps)
    true
    "https://rascl.example/logout"
    (fun _ => false)
    (fun _ => None)
    (AuthRoutes.newURL deps)
    (AuthRoutes.urlToString deps)
    fst
    snd.

(** The same with the stub login switched off. *)
Definition depsOff : AuthRoutes.Deps (string * string) string nat string :=
  AuthRoutes.mkDeps _ _ _ _
    (AuthRoutes.getRaoidcClient deps)
    (AuthRoutes.generateSigninRequest deps)
    (AuthRoutes.generateSignoutRequest deps)
    (AuthRoutes.handleValidationRequest deps)
    (AuthRoutes.handleCallbackRequest deps)
    false
    "https://rascl.example/logout"
    (fun _ => false)
    (fun _ => None)
    (AuthRoutes.newURL deps)
    (AuthRoutes.urlToString deps)
    fst
    snd.

(** A session nobody has logged into, and a logged-in one. *)
Definition nobody : Callback.Session (string * string) string :=
  Callback.mkSession _ _ None None None None.

Definition somebody : Callback.Session (string * string) string :=
  Callback.mkSession _ _
    (Some (Callback.mkAuthState _ _ "access" ("subject", "session") "800000002"))
    None None None.

(** A login request that asks to come back to [/letters], one that asks
    to go elsewhere, and a request on the page [/letters]. *)
Definition loginRequest : Request :=
  mkRequest "https://app.example/auth/login?returnto=/letters" "https://app.example"
    [("returnto", "/letters")] [].

Definition loginElsewhere : Request :=
  mkRequest "https://app.example/auth/login?returnto=https://evil.example"
    "https://app.example" [("returnto", "https://evil.example")] [].

Definition lettersPage : AuthRoutes.Location := AuthRoutes.mkLocation "/letters" "?page=2".

(** A state with a line feed in it, and the sample authorize request with
    that state, with and without its [redirect_uri]. *)
Definition brokenState : string := String "s" (String "010" (String "1" EmptyString)).

Definition authorizeBrokenState : Request :=
  mkRequest Samples.authorizeUrl "https://app.example"
    [("client_id", "00000000-0000-0000-0000-000000000000"); ("nonce", "n1");
     ("redirect_uri", "https://app.example/auth/callback");
     ("scope", "openid"); ("state", brokenState)] [].

Definition authorizeBrokenNoRedirect : Request :=
  mkRequest Samples.authorizeUrl "https://app.example"
    [("client_id", "00000000-0000-0000-0000-000000000000"); ("nonce", "n1");
     ("scope", "openid"); ("state", brokenState)] [].

(** A clock that moves on by a millisecond between the first and the
    second reading of every builder, and a process whose clock shows the
    last millisecond of a second. *)
Definition skewAcross (n : nat) : Z := if (n mod 3 =? 0)%nat then 0 else 1.

Definition worldAtSecondsEnd : World := mkWorld 999 ∅ [] 0 [].

End MoreSamples.

(* ================================================================== *)
(** ** Properties of the provider *)
(* ================================================================== *)

Import Http Jose Raoidc.

(** *** The code's tests in the words of the specification *)

Lemma truthy_Some (v : option string) (s : string) :
  truthy v = Some s -> v = Some s /\ s <> "".
Proof.
  destruct v as [[|a r]|]; simpl; intros H; inversion H; subst.
  split; [reflexivity | discriminate].
Qed.

Lemma truthy_None (v : option string) :
  truthy v = None -> v = None \/ v = Some "".
Proof.
  destruct v as [[|a r]|]; simpl; intros H; auto; discriminate.
Qed.

Lemma truthy_present (v : option string) :
  present v = isTruthy v.
Proof. destruct v as [[|a r]|]; reflexivity. Qed.

Lemma strictNe_decide (v : option string) (expected : string) :
  strictNe v expected = negb (bool_decide (v = Some expected)).
Proof.
  destruct v as [s|]; cbn [strictNe].
  - destruct (String.eqb_spec s expected) as [->|Hne].
    + rewrite bool_decide_eq_true_2; reflexivity.
    + rewrite bool_decide_eq_false_2; [reflexivity | congruence].
  - rewrite bool_decide_eq_false_2; [reflexivity | discriminate].
Qed.

Lemma includes_decide (l : list string) (s : string) :
  includes l s = bool_decide (s ∈ l).
Proof.
  unfold includes. induction l as [|x l IH]; cbn [existsb].
  - symmetry. apply bool_decide_eq_false_2, not_elem_of_nil.
  - rewrite IH. destruct (String.eqb_spec s x) as [->|Hne]; cbn [orb].
    + symmetry. apply bool_decide_eq_true_2, elem_of_cons; auto.
    + apply bool_decide_ext. rewrite elem_of_cons. tauto.
Qed.

Lemma getAllowedCallbacks_allowList (request : Request) :
  getAllowedCallbacks request = allowList request.
Proof. reflexivity. Qed.

(** The redirect test of both handlers, [redirectUri && !allowed.includes(redirectUri)]. *)
Lemma redirect_test_allowed (request : Request) (v : option string) :
  match truthy v with
  | Some uri => negb (includes (getAllowedCallbacks request) uri)
  | None => false
  end
  = negb (redirectUriAllowed request v).
Proof.
  rewrite getAllowedCallbacks_allowList.
  destruct v as [[|a r]|]; cbn [truthy redirectUriAllowed String.eqb]; try reflexivity.
  rewrite includes_decide. reflexivity.
Qed.

Section ProviderFacts.

Variable env : ServerEnvironment.
Variable entropy : nat -> ascii.
Variable skew : nat -> Z.

(** *** What the two handlers do *)

Lemma authorize_rejects (request : Request) (w : World) (chk : AuthorizeCheck) :
  firstFailing (authorizeHolds env request) authorizeOrder = Some chk ->
  handleAuthorizeRequest env entropy skew request w
  = (Normal (errorResponse (authorizeErrorCode chk)), w).
Proof.
  unfold handleAuthorizeRequest, firstFailing, authorizeOrder.
  cbn [List.find authorizeHolds].
  rewrite strictNe_decide, redirect_test_allowed, !truthy_present.
  unfold isTruthy.
  destruct (bool_decide _); cbn [negb].
  2:{ intros [= <-]. reflexivity. }
  destruct (truthy (params_get (searchParams request) "nonce")); cbn [negb].
  2:{ intros [= <-]. reflexivity. }
  destruct (redirectUriAllowed _ _); cbn [negb].
  2:{ intros [= <-]. reflexivity. }
  destruct (truthy (params_get (searchParams request) "scope")); cbn [negb].
  2:{ intros [= <-]. reflexivity. }
  destruct (truthy (params_get (searchParams request) "state")); cbn [negb].
  2:{ intros [= <-]. reflexivity. }
  discriminate.
Qed.

Lemma authorize_accepts (request : Request) (w : World) :
  firstFailing (authorizeHolds env request) authorizeOrder = None ->
  exists nonce state,
    truthy (params_get (searchParams request) "nonce") = Some nonce
    /\ truthy (params_get (searchParams request) "state") = Some state
    /\ handleAuthorizeRequest env entropy skew request w
       = let code := draw entropy (rngPos w) 32 in
         let access := fst (generateAccessToken env skew nonce w) in
         let id := fst (generateIdToken env skew "en-CA" nonce
                          (snd (generateAccessToken env skew nonce w))) in
         (redirect (interpolate (params_get (searchParams request) "redirect_uri")
                    +:+ "?code=" +:+ code +:+ "&state=" +:+ state),
          mkWorld (now w)
                  (<[code := mkTokenSet access id]> (tokenCache w))
                  (timers w ++ [mkTimer (now w + 30000) code])
                  (rngPos w + 32)
                  (minted w ++ [(Access, access); (Id, id)])).
Proof.
  unfold handleAuthorizeRequest, firstFailing, authorizeOrder.
  cbn [List.find authorizeHolds].
  rewrite strictNe_decide, redirect_test_allowed, !truthy_present.
  unfold isTruthy.
  destruct (bool_decide _); cbn [negb]; [|discriminate].
  destruct (truthy (params_get (searchParams request) "nonce")) as [nonce|];
    cbn [negb]; [|discriminate].
  destruct (redirectUriAllowed _ _); cbn [negb]; [|discriminate].
  destruct (truthy (params_get (searchParams request) "scope")); cbn [negb]; [|discriminate].
  destruct (truthy (params_get (searchParams request) "state")) as [state|];
    cbn [negb]; [|discriminate].
  intros _. exists nonce, state. split; [reflexivity|]. split; [reflexivity|].
  destruct w as [t cache tms pos log]. cbn. rewrite <- app_assoc. reflexivity.
Qed.

Lemma token_rejects (request : Request) (w : World) (chk : TokenCheck) :
  firstFailing (tokenHolds env request) tokenOrder = Some chk ->
  handleTokenRequest env request w = (errorResponse (tokenErrorCode chk), w).
Proof.
  unfold handleTokenRequest, firstFailing, tokenOrder.
  cbn [List.find tokenHolds].
  rewrite !strictNe_decide, redirect_test_allowed, !truthy_present.
  unfold isTruthy, JWT_BEARER.
  destruct (bool_decide (_ = Some "urn:ietf:params:oauth:client-assertion-type:jwt-bearer"));
    cbn [negb].
  2:{ intros [= <-]. reflexivity. }
  destruct (bool_decide (_ = Some (AUTH_RAOIDC_CLIENT_ID env))); cbn [negb].
  2:{ intros [= <-]. reflexivity. }
  destruct (truthy (params_get (formData request) "client_assertion")); cbn [negb].
  2:{ intros [= <-]. reflexivity. }
  destruct (truthy (params_get (formData request) "code")); cbn [negb].
  2:{ intros [= <-]. reflexivity. }
  destruct (bool_decide (_ = Some "authorization_code")); cbn [negb].
  2:{ intros [= <-]. reflexivity. }
  destruct (redirectUriAllowed _ _); cbn [negb].
  2:{ intros [= <-]. reflexivity. }
  discriminate.
Qed.

Lemma token_accepts (request : Request) (w : World) :
  firstFailing (tokenHolds env request) tokenOrder = None ->
  exists code,
    params_get (formData request) "code" = Some code
    /\ handleTokenRequest env request w
       = (match tokenCache w !! code with
          | Some tokens => Response_json (bearerBody tokens) OK
          | None => errorResponse "invalid_auth_code"
          end,
          mkWorld (now w) (tokenCache w)
                  (timers w ++ [mkTimer (now w + 30000) code])
                  (rngPos w) (minted w)).
Proof.
  unfold handleTokenRequest, firstFailing, tokenOrder.
  cbn [List.find tokenHolds].
  rewrite !strictNe_decide, redirect_test_allowed, !truthy_present.
  unfold isTruthy, JWT_BEARER.
  destruct (bool_decide (_ = Some "urn:ietf:params:oauth:client-assertion-type:jwt-bearer"));
    cbn [negb]; [|discriminate].
  destruct (bool_decide (_ = Some (AUTH_RAOIDC_CLIENT_ID env))); cbn [negb]; [|discriminate].
  destruct (truthy (params_get (formData request) "client_assertion")); cbn [negb]; [|discriminate].
  destruct (truthy (params_get (formData request) "code")) as [code|] eqn:Hcode;
    cbn [negb]; [|discriminate].
  destruct (bool_decide (_ = Some "authorization_code")); cbn [negb]; [|discriminate].
  destruct (redirectUriAllowed _ _); cbn [negb]; [|discriminate].
  intros _. exists code. split; [apply truthy_Some in Hcode; tauto|].
  destruct w as [t cache tms pos log]. cbn.
  destruct (cache !! code); reflexivity.
Qed.

(** A token request never touches the cache itself. *)
Lemma token_keeps_cache (request : Request) (w : World) :
  tokenCache (snd (handleTokenRequest env request w)) = tokenCache w.
Proof.
  destruct (firstFailing (tokenHolds env request) tokenOrder) as [chk|] eqn:Hchk.
  - rewrite (token_rejects _ _ _ Hchk). reflexivity.
  - destruct (token_accepts _ w Hchk) as (code & _ & ->). reflexivity.
Qed.

End ProviderFacts.

Lemma draw_length (entropy : nat -> ascii) (len pos : nat) :
  String.length (draw entropy pos len) = len.
Proof.
  revert pos. induction len as [|n IH]; intros pos; simpl; [reflexivity|].
  rewrite IH. reflexivity.
Qed.

(** *** Validation *)

(** C3.  A GET to [/authorize] is checked in the order client_id, nonce,
    redirect_uri, scope, state.  When a check fails, the response is the
    400 whose body is [{error: <code>}] for the first failing check, and
    the process is left exactly as it was: no code is drawn from the
    random source, no token is minted, the cache and the timers are
    untouched.  When none fails, the handler ends as the redirect to
    [<redirect_uri>?code=<code>&state=<state>] does. *)
Theorem authorize_validation_order (env : ServerEnvironment) (entropy : nat -> ascii) (skew : nat -> Z)
    (request : Request) (w : World) :
  match firstFailing (authorizeHolds env request) authorizeOrder with
  | Some chk =>
      handleAuthorizeRequest env entropy skew request w
      = (Normal (mkResponse 400 (Some [("error", JString (authorizeErrorCode chk))]) None), w)
  | None =>
      fst (handleAuthorizeRequest env entropy skew request w)
      = redirect (interpolate (params_get (searchParams request) "redirect_uri")
                  +:+ "?code=" +:+ draw entropy (rngPos w) 32
                  +:+ "&state=" +:+ interpolate (params_get (searchParams request) "state"))
  end.
Proof.
  destruct (firstFailing _ _) as [chk|] eqn:Hchk.
  - apply authorize_rejects, Hchk.
  - destruct (authorize_accepts env entropy skew request w Hchk)
      as (nonce & state & _ & Hstate & ->).
    apply truthy_Some in Hstate as [-> _]. reflexivity.
Qed.

(** C4.  A POST to [/token] is checked in the order client_assertion_type,
    client_id, client_assertion, code, grant_type, redirect_uri.  When a
    check fails, the response is the 400 whose body is [{error: <code>}]
    for the first failing check.  When none fails and the cache holds the
    code, the response is the 200 with [token_type] "Bearer", the cached
    [access_token] and [id_token], and [expires_in] 300; when the cache
    does not hold it, the response is [invalid_auth_code]. *)
Theorem token_validation_order (env : ServerEnvironment) (request : Request) (w : World) :
  match firstFailing (tokenHolds env request) tokenOrder with
  | Some chk =>
      handleTokenRequest env request w
      = (mkResponse 400 (Some [("error", JString (tokenErrorCode chk))]) None, w)
  | None =>
      fst (handleTokenRequest env request w)
      = match params_get (formData request) "code" ≫= (fun code => tokenCache w !! code) with
        | Some tokens =>
            mkResponse 200
              (Some [("token_type", JString "Bearer");
                     ("access_token", JCompact (accessToken tokens));
                     ("id_token", JCompact (idToken tokens));
                     ("expires_in", JNumber 300)])
              None
        | None => mkResponse 400 (Some [("error", JString "invalid_auth_code")]) None
        end
  end.
Proof.
  destruct (firstFailing _ _) as [chk|] eqn:Hchk.
  - apply token_rejects, Hchk.
  - destruct (token_accepts env request w Hchk) as (code & -> & ->).
    cbn [fst mbind option_bind].
    destruct (tokenCache w !! code); reflexivity.
Qed.

(** The scenarios of the design: an unknown client is turned away and
    the process is as before; a wrong grant type is reported although the
    code is one the cache would hold. *)
Example authorize_wrong_client :
  handleAuthorizeRequest Samples.env Samples.entropy Samples.skew Samples.authorizeWrongClient Samples.world
  = (Normal (errorResponse "invalid_client_id"), Samples.world).
Proof. reflexivity. Qed.

Example token_wrong_grant :
  fst (handleTokenRequest Samples.env Samples.tokenWrongGrant
         (snd (handleAuthorizeRequest Samples.env Samples.entropy Samples.skew
                 Samples.authorizeRequest Samples.world)))
  = errorResponse "invalid_grant_type".
Proof. reflexivity. Qed.

(** *** Issuing a code *)







(** *** The tokens *)

Import TokenCodec.

Lemma PublicKey_eqb_eq (a b : PublicKey) : PublicKey_eqb a b = true <-> a = b.
Proof.
  destruct a as [x], b as [y]. simpl. rewrite String.eqb_eq.
  split; [intros ->; reflexivity | intros [= ->]; reflexivity].
Qed.

Lemma PublicKey_eqb_refl (a : PublicKey) : PublicKey_eqb a a = true.
Proof. apply PublicKey_eqb_eq. reflexivity. Qed.

(** The three generators are the codec at the three purposes, stamped
    with the three readings of the clock. *)
Lemma generateAccessToken_codec (env : ServerEnvironment) (skew : nat -> Z)
    (nonce : string) (w : World) :
  generateAccessToken env skew nonce w
  = let n := length (minted w) in
    let tok := sign_and_encrypt env
                 (stamped env (now w + skew (3 * n)%nat) (now w + skew (3 * n + 1)%nat)
                          (now w + skew (3 * n + 2)%nat) []) Access in
    (tok, mkWorld (now w) (tokenCache w) (timers w) (rngPos w) (minted w ++ [(Access, tok)])).
Proof.
  unfold generateAccessToken, bind, readClock. rewrite Nat.add_0_r. reflexivity.
Qed.

Lemma generateIdToken_codec (env : ServerEnvironment) (skew : nat -> Z)
    (locale nonce : string) (w : World) :
  generateIdToken env skew locale nonce w
  = let n := length (minted w) in
    let tok := sign_and_encrypt env
                 (stamped env (now w + skew (3 * n)%nat) (now w + skew (3 * n + 1)%nat)
                          (now w + skew (3 * n + 2)%nat)
                          [("locale", locale); ("nonce", nonce)]) Id in
    (tok, mkWorld (now w) (tokenCache w) (timers w) (rngPos w) (minted w ++ [(Id, tok)])).
Proof.
  unfold generateIdToken, bind, readClock. rewrite Nat.add_0_r. reflexivity.
Qed.

Lemma generateUserinfoToken_codec (env : ServerEnvironment) (skew : nat -> Z)
    (birthdate locale sin : string) (w : World) :
  generateUserinfoToken env skew birthdate locale sin w
  = let n := length (minted w) in
    let tok := sign_and_encrypt env
                 (stamped env (now w + skew (3 * n)%nat) (now w + skew (3 * n + 1)%nat)
                          (now w + skew (3 * n + 2)%nat)
                          [("birthdate", birthdate); ("locale", locale); ("sin", sin)])
                 Userinfo in
    (tok, mkWorld (now w) (tokenCache w) (timers w) (rngPos w) (minted w ++ [(Userinfo, tok)])).
Proof.
  unfold generateUserinfoToken, bind, readClock. rewrite Nat.add_0_r. reflexivity.
Qed.

(** Seconds since the epoch of two readings at most a second apart. *)
Lemma epoch_near (t1 t2 : Z) :
  (t1 <= t2)%Z -> (t2 < t1 + 1000)%Z ->
  (epoch t1 <= epoch t2)%Z /\ (epoch t2 <= epoch t1 + 1)%Z.
Proof.
  intros Hle Hlt. unfold epoch. split.
  - apply Z.div_le_mono; lia.
  - replace (t1 / 1000 + 1)%Z with ((t1 + 1 * 1000) / 1000)%Z
      by (rewrite Z.div_add by lia; reflexivity).
    apply Z.div_le_mono; lia.
Qed.

(** The claims of a builder whose readings are in order and within one
    second. *)
Lemma stamped_near (env : ServerEnvironment) (t1 t2 t3 : Z) (extra : list (string * string)) :
  (t1 <= t2)%Z -> (t2 <= t3)%Z -> (t3 < t1 + 1000)%Z ->
  envelopeNear env (stamped env t1 t2 t3 extra)
  /\ envelopeOrdered (stamped env t1 t2 t3 extra).
Proof.
  intros H12 H23 H31.
  destruct (epoch_near t1 t2) as [Ha Hb]; [lia | lia |].
  destruct (epoch_near t2 t3) as [Hc Hd]; [lia | lia |].
  destruct (epoch_near t1 t3) as [He Hf]; [lia | lia |].
  split.
  - exists (epoch t2), (epoch t1 + 1200)%Z, (epoch t3 - 30)%Z. cbn.
    repeat split; lia.
  - exists (epoch t2), (epoch t1 + 1200)%Z, (epoch t3 - 30)%Z. cbn.
    repeat split; lia.
Qed.

(** The claims of a builder whose readings fall in the same second. *)
Lemma stamped_exact (env : ServerEnvironment) (t1 t2 t3 : Z) (extra : list (string * string)) :
  epoch t1 = epoch t2 -> epoch t3 = epoch t2 ->
  envelopeOk env (stamped env t1 t2 t3 extra).
Proof.
  intros H1 H3. exists (epoch t2). cbn. rewrite H1, H3.
  repeat split; f_equal; lia.
Qed.

Lemma fromBuilder_fromCodec (env : ServerEnvironment) (skew : nat -> Z)
    (kt : TokenKind * JWE) :
  fromBuilder env skew kt -> fromCodec env kt.
Proof. intros (t & n & extra & Heq). eexists _, _, _, _. exact Heq. Qed.

Section MintedLog.

Variable env : ServerEnvironment.
Variable entropy : nat -> ascii.
Variable skew : nat -> Z.

Lemma advance_minted (t : Z) (w : World) : minted (advance t w) = minted w.
Proof. reflexivity. Qed.

Lemma step_minted (ev : Event) (w : World) :
  Forall (fromBuilder env skew) (minted w)
  -> Forall (fromBuilder env skew) (minted (snd (step env entropy skew ev w))).
Proof.
  intros Hw. destruct ev as [t request|t request|t request|t]; cbn [step].
  - destruct (firstFailing (authorizeHolds env request) authorizeOrder) as [chk|] eqn:Hchk.
    + rewrite (authorize_rejects env entropy skew _ _ _ Hchk). exact Hw.
    + destruct (authorize_accepts env entropy skew request (advance t w) Hchk)
        as (nonce & state & _ & _ & ->).
      rewrite generateAccessToken_codec, generateIdToken_codec.
      cbn. apply Forall_app. split; [exact Hw|].
      repeat constructor; eexists _, _, _; reflexivity.
  - destruct (firstFailing (tokenHolds env request) tokenOrder) as [chk|] eqn:Hchk.
    + rewrite (token_rejects env _ _ _ Hchk). exact Hw.
    + destruct (token_accepts env request (advance t w) Hchk) as (code & _ & ->). exact Hw.
  - unfold handleUserinfoRequest, bind. rewrite generateUserinfoToken_codec.
    cbn. apply Forall_app. split; [exact Hw|].
    repeat constructor; eexists _, _, _; reflexivity.
  - exact Hw.
Qed.

Lemma run_minted (evs : list Event) (w : World) :
  Forall (fromBuilder env skew) (minted w)
  -> Forall (fromBuilder env skew) (minted (run env entropy skew evs w)).
Proof.
  revert w. induction evs as [|ev evs IH]; intros w Hw; cbn [run]; [exact Hw|].
  apply IH, step_minted, Hw.
Qed.

(** Every token a process has minted since it started came out of a
    builder of the provider, for the purpose it is logged under. *)
Lemma boot_built (evs : list Event) (t : Z) :
  Forall (fromBuilder env skew) (minted (run env entropy skew evs (boot t))).
Proof. apply run_minted. constructor. Qed.

(** Every token a process has minted since it started came out of the
    codec, for the purpose of the generator that made it. *)
Lemma boot_minted (evs : list Event) (t : Z) :
  Forall (fromCodec env) (minted (run env entropy skew evs (boot t))).
Proof.
  eapply Forall_impl; [apply boot_built|]. intros kt. apply fromBuilder_fromCodec.
Qed.

End MintedLog.




(** C7.  The key a token is wrapped for depends on its purpose: an access
    token is encrypted for the provider's own public key, an id token and
    a userinfo token for the client's public key, and what is encrypted
    is in each case the token signed with the provider's private key.
    This holds for each generator in every state, and for every token in
    the log of a process however long it has run. *)
Theorem minted_keys_by_purpose (env : ServerEnvironment) (entropy : nat -> ascii) (skew : nat -> Z) :
  (forall (w : World) (nonce locale birthdate sin : string),
     let access := fst (generateAccessToken env skew nonce w) in
     let id := fst (generateIdToken env skew locale nonce w) in
     let userinfo := fst (generateUserinfoToken env skew birthdate locale sin w) in
     jwe_recipient access = AUTH_SERVER_PUBLIC_KEY env
     /\ jwe_recipient id = AUTH_CLIENT_PUBLIC_KEY env
     /\ jwe_recipient userinfo = AUTH_CLIENT_PUBLIC_KEY env
     /\ Forall (fun tok => jws_signer (jwe_plaintext tok) = AUTH_SERVER_PRIVATE_KEY env)
               [access; id; userinfo])
  /\ (forall (evs : list Event) (t : Z),
        Forall (fun kt =>
                  jwe_recipient kt.2
                  = match kt.1 with
                    | Access => AUTH_SERVER_PUBLIC_KEY env
                    | Id | Userinfo => AUTH_CLIENT_PUBLIC_KEY env
                    end
                  /\ jws_signer (jwe_plaintext kt.2) = AUTH_SERVER_PRIVATE_KEY env)
               (minted (run env entropy skew evs (boot t)))).
Proof.
  split.
  - intros w nonce locale birthdate sin. cbn zeta.
    rewrite generateAccessToken_codec, generateIdToken_codec, generateUserinfoToken_codec.
    repeat split. repeat constructor.
  - intros evs t. eapply Forall_impl; [apply boot_minted|].
    intros [k tok] (t1 & t2 & t3 & extra & Heq). cbn in Heq. subst tok.
    destruct k; split; reflexivity.
Qed.

(** C8.  With matching key pairs and claims that are valid at the time of
    verification, decrypting and verifying a token of the codec for its
    purpose gives back exactly the claims; and opening it with a private
    key that is not the private half of the key it was wrapped for
    fails. *)
Theorem codec_round_trip (env : ServerEnvironment) (claims : JWTPayload)
    (purpose : TokenKind) (nowSec : Z) :
  keysMatch env ->
  claimsValidAt nowSec claims = true ->
  decrypt_and_verify env nowSec (sign_and_encrypt env claims purpose) purpose = Some claims
  /\ forall key : PrivateKey,
       publicOf key <> encryptionTarget env purpose ->
       decrypt_with key (AUTH_SERVER_PUBLIC_KEY env) nowSec
                    (sign_and_encrypt env claims purpose) = None.
Proof.
  intros [Hserver Hclient] Hvalid. split.
  - unfold decrypt_and_verify, decrypt_with, compactDecrypt, sign_and_encrypt, CompactEncrypt.
    cbn [jwe_recipient jwe_plaintext].
    assert (Hkey : publicOf (decryptionKey env purpose) = encryptionTarget env purpose).
    { destruct purpose; assumption. }
    rewrite Hkey, PublicKey_eqb_refl.
    unfold verifies. cbn [jws_signer jws_payload].
    rewrite Hserver, PublicKey_eqb_refl, Hvalid. reflexivity.
  - intros key Hne.
    unfold decrypt_with, compactDecrypt, sign_and_encrypt, CompactEncrypt.
    cbn [jwe_recipient].
    destruct (PublicKey_eqb _ _) eqn:Heq; [|reflexivity].
    apply PublicKey_eqb_eq in Heq. contradiction.
Qed.

Lemma codec_round_trip_witness :
  keysMatch Samples.env
  /\ claimsValidAt 100 Samples.claims = true
  /\ decrypt_and_verify Samples.env 100
       (sign_and_encrypt Samples.env Samples.claims Id) Id = Some Samples.claims
  /\ decrypt_with (PKCS8 "server") (AUTH_SERVER_PUBLIC_KEY Samples.env) 100
       (sign_and_encrypt Samples.env Samples.claims Id) = None.
Proof.
  assert (Hk : keysMatch Samples.env) by (split; reflexivity).
  destruct (codec_round_trip Samples.env Samples.claims Id 100 Hk eq_refl) as [Hrt Hwrong].
  split; [exact Hk|]. split; [reflexivity|]. split; [exact Hrt|].
  apply Hwrong. discriminate.
Defined.

(* ================================================================== *)
(** ** Properties of the callback *)
(* ================================================================== *)

(** C10.  When the session holds no [loginState], the callback returns
    the 400 with body [{message: "Invalid login state"}]; it does not
    reach for the RAOIDC client, so nothing is exchanged whatever the
    client would do; and the session is left as it was, in particular
    without an [authState] if it had none. *)
Theorem callback_without_login_state
    (IdTokenClaims UserinfoTokenClaims Net Err : Type)
    (getRaoidcClient : Net -> (Err + unit) * Net)
    (handleCallbackRequest :
       Callback.CallbackArgs -> Net
       -> (Err + Callback.TokenSet IdTokenClaims UserinfoTokenClaims) * Net)
    (stubLogin : bool) (isResponse : Err -> bool) (getCorrelationId : Err -> option string)
    (request : Request)
    (session : Callback.Session IdTokenClaims UserinfoTokenClaims) (net : Net) :
  Callback.loginState _ _ session = None ->
  let r := Callback.handleCallback _ _ _ _ getRaoidcClient handleCallbackRequest
             stubLogin isResponse getCorrelationId request session net in
  Callback.outcome _ _ _ _ r
  = Callback.Returned _
      (mkResponse 400 (Some [("message", JString "Invalid login state")]) None)
  /\ Callback.net' _ _ _ _ r = net
  /\ Callback.session' _ _ _ _ r = session
  /\ match Callback.authState _ _ session with
     | None => Callback.authState _ _ (Callback.session' _ _ _ _ r) = None
     | Some _ => True
     end
  /\ Callback.span _ _ _ _ r
     = [Callback.SetAttribute "request_url" (href request);
        Callback.AddEvent "login_state.invalid";
        Callback.SpanEnd].
Proof.
  intros Hnone r. subst r. unfold Callback.handleCallback. rewrite Hnone.
  cbn. repeat split.
  destruct (Callback.authState _ _ session) eqn:Ha; [exact I | reflexivity].
Qed.

Lemma callback_without_login_state_witness :
  Callback.loginState _ _ Samples.anonymous = None
  /\ Callback.net' _ _ _ _
       (Callback.handleCallback _ _ _ _ Samples.getClient Samples.exchange true
          (fun _ => false) (fun _ => None)
          Samples.callbackRequest Samples.anonymous 0%nat) = 0%nat.
Proof.
  split; [reflexivity|].
  apply (callback_without_login_state unit unit nat string Samples.getClient Samples.exchange
           true (fun _ => false) (fun _ => None)
           Samples.callbackRequest Samples.anonymous 0%nat eq_refl).
Defined.

(* ================================================================== *)
(** ** The lifetime of a code *)
(* ================================================================== *)

(** *** Timers *)

Lemma fired_lookup_None (l : list Timer) (m : gmap string TokenSet) (c : string) :
  m !! c = None ->
  foldr (fun tm acc => delete (target tm) acc) m l !! c = None.
Proof.
  intros Hm. induction l as [|tm l IH]; cbn [foldr]; [exact Hm|].
  destruct (decide (target tm = c)) as [->|Hne].
  - apply lookup_delete_eq.
  - rewrite lookup_delete_ne by exact Hne. exact IH.
Qed.

Lemma fired_lookup_target (l : list Timer) (m : gmap string TokenSet) (tm : Timer) :
  tm ∈ l ->
  foldr (fun tm acc => delete (target tm) acc) m l !! target tm = None.
Proof.
  induction l as [|tm' l IH]; intros Hin; [inversion Hin|].
  cbn [foldr]. destruct (decide (target tm' = target tm)) as [->|Hne].
  - apply lookup_delete_eq.
  - rewrite lookup_delete_ne by exact Hne.
    apply elem_of_cons in Hin as [->|Hin]; [contradiction | apply IH, Hin].
Qed.

Lemma fired_lookup_other (l : list Timer) (m : gmap string TokenSet) (c : string) :
  Forall (fun tm => target tm <> c) l ->
  foldr (fun tm acc => delete (target tm) acc) m l !! c = m !! c.
Proof.
  induction 1 as [|tm l Hne _ IH]; cbn [foldr]; [reflexivity|].
  rewrite lookup_delete_ne by exact Hne. exact IH.
Qed.

Lemma advance_now (t : Z) (w : World) : now (advance t w) = Z.max t (now w).
Proof. reflexivity. Qed.

Lemma advance_rngPos (t : Z) (w : World) : rngPos (advance t w) = rngPos w.
Proof. reflexivity. Qed.

(** After the loop has caught up, every pending timer is still ahead. *)
Lemma advance_pending (t : Z) (w : World) (tm : Timer) :
  tm ∈ timers (advance t w) -> tm ∈ timers w /\ now (advance t w) < due tm.
Proof.
  unfold advance. cbn [timers now]. intros Hin.
  apply list_elem_of_filter in Hin as [Hdue Hin]. split; [exact Hin|].
  unfold isDue in Hdue. apply Z.leb_gt in Hdue. exact Hdue.
Qed.

Lemma advance_expiring (c : string) (d t : Z) (w : World) :
  expiring c d w -> expiring c d (advance t w).
Proof.
  intros [[Hin Hlt]|[Hnone Hle]].
  - destruct (Z_lt_le_dec (Z.max t (now w)) d) as [Hbefore|Hafter].
    + left. split; [|rewrite advance_now; exact Hbefore].
      unfold advance. cbn [timers]. apply list_elem_of_filter. split; [|exact Hin].
      unfold isDue. cbn [due]. apply Z.leb_gt. exact Hbefore.
    + right. split; [|rewrite advance_now; exact Hafter].
      unfold advance. cbn [tokenCache].
      apply (fired_lookup_target _ _ (mkTimer d c)).
      apply list_elem_of_filter. split; [|exact Hin].
      unfold isDue. cbn [due]. apply Z.leb_le. exact Hafter.
  - right. split; [|rewrite advance_now; lia].
    unfold advance. cbn [tokenCache]. apply fired_lookup_None, Hnone.
Qed.

Lemma advance_holding (c : string) (d t : Z) (v : option TokenSet) (w : World) :
  holding c d v w -> holding c d v (advance t w).
Proof.
  intros [Hlo Hhold]. split; [rewrite advance_now; lia|].
  rewrite advance_now. intros Hbefore.
  destruct Hhold as [Hv Hall]; [lia|]. split.
  - unfold advance. cbn [tokenCache]. rewrite fired_lookup_other; [exact Hv|].
    apply Forall_forall. intros tm Hin Htarget.
    apply list_elem_of_filter in Hin as [Hdue Hin].
    unfold isDue in Hdue. apply Z.leb_le in Hdue.
    rewrite Forall_forall in Hall. specialize (Hall tm Hin Htarget). lia.
  - unfold advance. cbn [timers]. apply Forall_forall. intros tm Hin.
    apply list_elem_of_filter in Hin as [_ Hin].
    rewrite Forall_forall in Hall. apply Hall, Hin.
Qed.

(** *** Handlers and runs *)

Section Lifetime.

Variable env : ServerEnvironment.
Variable entropy : nat -> ascii.
Variable skew : nat -> Z.

(** The code under watch, the time its entry is due to go, and the entry. *)
Variables (c : string) (d : Z) (v : option TokenSet).

(** The handler draws from the random source exactly when the request
    passes validation. *)
Lemma authorize_draws (request : Request) (w : World) :
  rngPos (snd (handleAuthorizeRequest env entropy skew request w))
  = match firstFailing (authorizeHolds env request) authorizeOrder with
    | Some _ => rngPos w
    | None => (rngPos w + 32)%nat
    end.
Proof.
  destruct (firstFailing _ _) as [chk|] eqn:Hchk.
  - rewrite (authorize_rejects env entropy skew _ _ _ Hchk). reflexivity.
  - destruct (authorize_accepts env entropy skew request w Hchk) as (nonce & state & _ & _ & ->).
    reflexivity.
Qed.

Lemma authorize_expiring (request : Request) (w : World) :
  (firstFailing (authorizeHolds env request) authorizeOrder = None ->
   draw entropy (rngPos w) 32 <> c) ->
  expiring c d w -> expiring c d (snd (handleAuthorizeRequest env entropy skew request w)).
Proof.
  intros Hother Hw.
  destruct (firstFailing (authorizeHolds env request) authorizeOrder) as [chk|] eqn:Hchk.
  - rewrite (authorize_rejects env entropy skew _ _ _ Hchk). exact Hw.
  - destruct (authorize_accepts env entropy skew request w Hchk) as (nonce & state & _ & _ & ->).
    specialize (Hother eq_refl). cbn zeta. cbn [snd].
    destruct Hw as [[Hin Hlt]|[Hnone Hle]].
    + left. cbn [timers now]. split; [|exact Hlt]. apply elem_of_app. left. exact Hin.
    + right. cbn [tokenCache now]. split; [|exact Hle].
      rewrite lookup_insert_ne by exact Hother. exact Hnone.
Qed.

Lemma authorize_holding (request : Request) (w : World) :
  (firstFailing (authorizeHolds env request) authorizeOrder = None ->
   draw entropy (rngPos w) 32 <> c) ->
  holding c d v w -> holding c d v (snd (handleAuthorizeRequest env entropy skew request w)).
Proof.
  intros Hother Hw.
  destruct (firstFailing (authorizeHolds env request) authorizeOrder) as [chk|] eqn:Hchk.
  - rewrite (authorize_rejects env entropy skew _ _ _ Hchk). exact Hw.
  - destruct (authorize_accepts env entropy skew request w Hchk) as (nonce & state & _ & _ & ->).
    specialize (Hother eq_refl). cbn zeta. cbn [snd].
    destruct Hw as [Hlo Hhold]. split; [exact Hlo|].
    cbn [now tokenCache timers]. intros Hbefore.
    destruct (Hhold Hbefore) as [Hv Hall]. split.
    + rewrite lookup_insert_ne by exact Hother. exact Hv.
    + apply Forall_app. split; [exact Hall|].
      constructor; [|constructor]. cbn [target]. intros Heq. contradiction.
Qed.

Lemma token_expiring (request : Request) (w : World) :
  expiring c d w -> expiring c d (snd (handleTokenRequest env request w)).
Proof.
  intros Hw.
  destruct (firstFailing (tokenHolds env request) tokenOrder) as [chk|] eqn:Hchk.
  - rewrite (token_rejects env _ _ _ Hchk). exact Hw.
  - destruct (token_accepts env request w Hchk) as (code & _ & ->). cbn [snd].
    destruct Hw as [[Hin Hlt]|[Hnone Hle]].
    + left. cbn [timers now]. split; [|exact Hlt]. apply elem_of_app. left. exact Hin.
    + right. cbn [tokenCache now]. split; assumption.
Qed.

Lemma token_holding (request : Request) (w : World) :
  holding c d v w -> holding c d v (snd (handleTokenRequest env request w)).
Proof.
  intros Hw.
  destruct (firstFailing (tokenHolds env request) tokenOrder) as [chk|] eqn:Hchk.
  - rewrite (token_rejects env _ _ _ Hchk). exact Hw.
  - destruct (token_accepts env request w Hchk) as (code & _ & ->). cbn [snd].
    destruct Hw as [Hlo Hhold]. split; [exact Hlo|].
    cbn [now tokenCache timers]. intros Hbefore.
    destruct (Hhold Hbefore) as [Hv Hall]. split; [exact Hv|].
    apply Forall_app. split; [exact Hall|].
    constructor; [|constructor]. cbn [target due]. intros _. lia.
Qed.

Lemma userinfo_world (request : Request) (w : World) :
  let w' := snd (handleUserinfoRequest env skew request w) in
  now w' = now w /\ tokenCache w' = tokenCache w /\ timers w' = timers w.
Proof. repeat split. Qed.

Lemma userinfo_expiring (request : Request) (w : World) :
  expiring c d w -> expiring c d (snd (handleUserinfoRequest env skew request w)).
Proof.
  destruct (userinfo_world request w) as (Hn & Hc & Ht).
  unfold expiring. rewrite Hn, Hc, Ht. tauto.
Qed.

Lemma userinfo_holding (request : Request) (w : World) :
  holding c d v w -> holding c d v (snd (handleUserinfoRequest env skew request w)).
Proof.
  destruct (userinfo_world request w) as (Hn & Hc & Ht).
  unfold holding. rewrite Hn, Hc, Ht. tauto.
Qed.

(** An event that does not issue [c]. *)
Lemma issues_other (t : Z) (request : Request) (w : World) :
  issues env entropy skew (GetAuthorize t request) w <> Some c ->
  firstFailing (authorizeHolds env request) authorizeOrder = None ->
  draw entropy (rngPos (advance t w)) 32 <> c.
Proof.
  intros Hissues Hok Heq. apply Hissues. cbn [issues].
  rewrite authorize_draws, Hok, !advance_rngPos.
  replace (rngPos w + 32 =? rngPos w)%nat with false
    by (symmetry; apply Nat.eqb_neq; lia).
  rewrite advance_rngPos in Heq. congruence.
Qed.

Lemma step_expiring (ev : Event) (w : World) :
  issues env entropy skew ev w <> Some c ->
  expiring c d w -> expiring c d (snd (step env entropy skew ev w)).
Proof.
  intros Hissues Hw. destruct ev as [t request|t request|t request|t]; cbn [step].
  - destruct (handleAuthorizeRequest env entropy skew request (advance t w)) as [r w'] eqn:Hh.
    cbn [snd]. change w' with (snd (r, w')). rewrite <- Hh.
    apply authorize_expiring; [apply issues_other, Hissues | apply advance_expiring, Hw].
  - destruct (handleTokenRequest env request (advance t w)) as [r w'] eqn:Hh.
    change w' with (snd (r, w')). rewrite <- Hh.
    apply token_expiring, advance_expiring, Hw.
  - destruct (handleUserinfoRequest env skew request (advance t w)) as [r w'] eqn:Hh.
    change w' with (snd (r, w')). rewrite <- Hh.
    apply userinfo_expiring, advance_expiring, Hw.
  - apply advance_expiring, Hw.
Qed.

Lemma step_holding (ev : Event) (w : World) :
  issues env entropy skew ev w <> Some c ->
  holding c d v w -> holding c d v (snd (step env entropy skew ev w)).
Proof.
  intros Hissues Hw. destruct ev as [t request|t request|t request|t]; cbn [step].
  - destruct (handleAuthorizeRequest env entropy skew request (advance t w)) as [r w'] eqn:Hh.
    cbn [snd]. change w' with (snd (r, w')). rewrite <- Hh.
    apply authorize_holding; [apply issues_other, Hissues | apply advance_holding, Hw].
  - destruct (handleTokenRequest env request (advance t w)) as [r w'] eqn:Hh.
    change w' with (snd (r, w')). rewrite <- Hh.
    apply token_holding, advance_holding, Hw.
  - destruct (handleUserinfoRequest env skew request (advance t w)) as [r w'] eqn:Hh.
    change w' with (snd (r, w')). rewrite <- Hh.
    apply userinfo_holding, advance_holding, Hw.
  - apply advance_holding, Hw.
Qed.

Lemma issued_cons (ev : Event) (evs : list Event) (w : World) :
  c ∉ issued env entropy skew (ev :: evs) w ->
  issues env entropy skew ev w <> Some c
  /\ c ∉ issued env entropy skew evs (snd (step env entropy skew ev w)).
Proof.
  cbn [issued]. destruct (issues env entropy skew ev w) as [c'|].
  - intros Hnot. apply not_elem_of_cons in Hnot as [Hne Hnot].
    split; [congruence | exact Hnot].
  - intros Hnot. split; [discriminate | exact Hnot].
Qed.

Lemma run_expiring (evs : list Event) (w : World) :
  c ∉ issued env entropy skew evs w ->
  expiring c d w -> expiring c d (run env entropy skew evs w).
Proof.
  revert w. induction evs as [|ev evs IH]; intros w Hnot Hw; cbn [run]; [exact Hw|].
  apply issued_cons in Hnot as [Hev Hnot].
  apply IH; [exact Hnot | apply step_expiring; assumption].
Qed.

Lemma run_holding (evs : list Event) (w : World) :
  c ∉ issued env entropy skew evs w ->
  holding c d v w -> holding c d v (run env entropy skew evs w).
Proof.
  revert w. induction evs as [|ev evs IH]; intros w Hnot Hw; cbn [run]; [exact Hw|].
  apply issued_cons in Hnot as [Hev Hnot].
  apply IH; [exact Hnot | apply step_holding; assumption].
Qed.

End Lifetime.

(** *** Expiry *)

(** C2.  The entry a successful GET to [/authorize] creates is deleted 30
    seconds after it was inserted: once the clock has reached that time
    the cache no longer holds the code, and (when no older timer was
    aimed at the code) until then it still holds the very entry, consumed
    or not.  So a POST to [/token] that passes validation and presents
    the code more than 30 seconds after it was issued is answered with
    [invalid_auth_code].  The run in between is arbitrary, except that
    the random source does not hand out the same code again. *)
Theorem code_expires_after_30s (env : ServerEnvironment) (entropy : nat -> ascii) (skew : nat -> Z)
    (w : World) (t : Z) (request : Request) (evs : list Event)
    (t' : Z) (request' : Request) :
  let issuedAt := now (advance t w) in
  let code := draw entropy (rngPos w) 32 in
  let w1 := snd (step env entropy skew (GetAuthorize t request) w) in
  let w2 := run env entropy skew evs w1 in
  firstFailing (authorizeHolds env request) authorizeOrder = None ->
  code ∉ issued env entropy skew evs w1 ->
  firstFailing (tokenHolds env request') tokenOrder = None ->
  params_get (formData request') "code" = Some code ->
  issuedAt + 30000 < t' ->
  is_Some (tokenCache w1 !! code)
  /\ (issuedAt + 30000 <= now w2 -> tokenCache w2 !! code = None)
  /\ (Forall (fun tm => target tm <> code) (timers w) ->
      now w2 < issuedAt + 30000 ->
      tokenCache w2 !! code = tokenCache w1 !! code)
  /\ fst (step env entropy skew (PostToken t' request') w2)
     = Some (mkResponse 400 (Some [("error", JString "invalid_auth_code")]) None).
Proof.
  intros issuedAt code w1 w2 Hok Hnot Hok' Hcode Hlate.
  destruct (authorize_accepts env entropy skew request (advance t w) Hok)
    as (nonce & state & _ & _ & Heq).
  rewrite advance_rngPos in Heq. cbn zeta in Heq. fold code issuedAt in Heq.
  set (entry := mkTokenSet _ _) in Heq.
  assert (Hw1 : w1 = mkWorld issuedAt (<[code := entry]> (tokenCache (advance t w)))
                       (timers (advance t w) ++ [mkTimer (issuedAt + 30000) code])
                       (rngPos w + 32)
                       (minted (advance t w)
                        ++ [(Access, fst (generateAccessToken env skew nonce (advance t w)));
                            (Id, fst (generateIdToken env skew "en-CA" nonce
                                       (snd (generateAccessToken env skew nonce
                                               (advance t w)))))])).
  { subst w1. cbn [step]. rewrite Heq. reflexivity. }
  assert (Hentry : tokenCache w1 !! code = Some entry).
  { rewrite Hw1. cbn [tokenCache]. apply lookup_insert_eq. }
  assert (Hexp : expiring code (issuedAt + 30000) w2).
  { apply run_expiring; [exact Hnot|]. left. rewrite Hw1. cbn [timers now].
    split; [|lia]. apply elem_of_app. right. apply list_elem_of_singleton. reflexivity. }
  split; [rewrite Hentry; eexists; reflexivity|].
  split; [|split].
  - intros Hpast. destruct Hexp as [[_ Hlt]|[Hnone _]]; [lia | exact Hnone].
  - intros Hfresh Hbefore.
    assert (Hhold : holding code (issuedAt + 30000) (Some entry) w2).
    { apply run_holding; [exact Hnot|]. rewrite Hw1. split; cbn [now]; [lia|].
      intros _. cbn [tokenCache timers]. split; [apply lookup_insert_eq|].
      apply Forall_app. split.
      - apply Forall_forall. intros tm Hin Htarget.
        apply advance_pending in Hin as [Hin _].
        rewrite Forall_forall in Hfresh. destruct (Hfresh tm Hin Htarget).
      - constructor; [|constructor]. cbn [due]. intros _. lia. }
    destruct Hhold as [_ Hhold]. destruct (Hhold Hbefore) as [Hv _].
    rewrite Hv, Hentry. reflexivity.
  - cbn [step].
    destruct (token_accepts env request' (advance t' w2) Hok') as (code' & Hcode' & Hresp).
    rewrite Hresp. cbn [fst].
    assert (code' = code) as -> by congruence.
    apply (advance_expiring _ _ t') in Hexp.
    destruct Hexp as [[_ Hlt]|[Hnone _]].
    + rewrite advance_now in Hlt. lia.
    + rewrite Hnone. reflexivity.
Qed.

Lemma code_expires_after_30s_witness :
  firstFailing (authorizeHolds Samples.env Samples.authorizeRequest) authorizeOrder = None
  /\ firstFailing (tokenHolds Samples.env (Samples.tokenRequest Samples.code)) tokenOrder = None
  /\ 0 + 30000 < 30001
  /\ fst (step Samples.env Samples.entropy Samples.skew (PostToken 30001 (Samples.tokenRequest Samples.code))
            (run Samples.env Samples.entropy Samples.skew
               [PostToken 1000 (Samples.tokenRequest Samples.code); Tick 20000]
               (snd (step Samples.env Samples.entropy Samples.skew
                       (GetAuthorize 0 Samples.authorizeRequest) Samples.world))))
     = Some (mkResponse 400 (Some [("error", JString "invalid_auth_code")]) None).
Proof.
  split; [reflexivity|]. split; [reflexivity|]. split; [lia|].
  apply (code_expires_after_30s Samples.env Samples.entropy Samples.skew Samples.world 0
           Samples.authorizeRequest
           [PostToken 1000 (Samples.tokenRequest Samples.code); Tick 20000]
           30001 (Samples.tokenRequest Samples.code)).
  - reflexivity.
  - cbn. apply not_elem_of_nil.
  - reflexivity.
  - reflexivity.
  - cbn. lia.
Defined.

(** *** Replay *)

(** A token exchange that hits leaves the entry where it was: the same
    request repeated at once hits again, with the same tokens. *)
Lemma token_hit_repeats (env : ServerEnvironment) (request : Request) (w : World) :
  let w' := snd (handleTokenRequest env request w) in
  fst (handleTokenRequest env request w') = fst (handleTokenRequest env request w).
Proof.
  cbn zeta.
  destruct (firstFailing (tokenHolds env request) tokenOrder) as [chk|] eqn:Hchk.
  - rewrite !(token_rejects env _ _ _ Hchk). reflexivity.
  - destruct (token_accepts env request w Hchk) as (code & Hcode & Hw).
    destruct (token_accepts env request (snd (handleTokenRequest env request w)) Hchk)
      as (code' & Hcode' & Hw').
    assert (code' = code) as -> by congruence.
    rewrite Hw'. rewrite Hw at 2. cbn [fst]. rewrite Hw. reflexivity.
Qed.

(** C1.  The end-to-end scenario on the code as written: the code is
    issued at time 0 and exchanged after one second; the same exchange
    repeated after two seconds is answered with the same 200 and the same
    tokens, not with [invalid_auth_code]. *)
Theorem code_redeemed_twice :
  let rs := responses Samples.env Samples.entropy Samples.skew
              [GetAuthorize 0 Samples.authorizeRequest;
               PostToken 1000 (Samples.tokenRequest Samples.code);
               PostToken 2000 (Samples.tokenRequest Samples.code)]
              Samples.world in
  exists tokens : TokenSet,
    rs !! 1%nat = Some (Some (mkResponse 200 (Some (bearerBody tokens)) None))
    /\ rs !! 2%nat = Some (Some (mkResponse 200 (Some (bearerBody tokens)) None))
    /\ rs !! 2%nat
       <> Some (Some (mkResponse 400 (Some [("error", JString "invalid_auth_code")]) None)).
Proof.
  cbn zeta.
  exists (mkTokenSet (fst (generateAccessToken Samples.env Samples.skew "n1" Samples.world))
                     (fst (generateIdToken Samples.env Samples.skew "en-CA" "n1" Samples.world))).
  split; [vm_compute; reflexivity|].
  split; [vm_compute; reflexivity|].
  vm_compute. discriminate.
Qed.

(* ================================================================== *)
(** ** More about the provider *)
(* ================================================================== *)

Import RaoidcRoutes.

(** *** The dispatchers *)

Lemma untouched_refl (w : World) : untouched w w.
Proof. repeat split. Qed.

Lemma isEndpoint_elem (endpoint : option string) (l : list string) :
  existsb (isEndpoint endpoint) l = bool_decide (endpoint ∈ map Some l).
Proof.
  induction l as [|x l IH]; cbn [existsb map].
  - symmetry. apply bool_decide_eq_false_2, not_elem_of_nil.
  - rewrite IH. destruct endpoint as [e|]; cbn [isEndpoint].
    + destruct (String.eqb_spec e x) as [->|Hne]; cbn [orb].
      * symmetry. apply bool_decide_eq_true_2, elem_of_cons. auto.
      * apply bool_decide_ext. rewrite elem_of_cons.
        split; [auto | intros [[= ?]|?]; [contradiction | assumption]].
    + cbn [orb]. apply bool_decide_ext. rewrite elem_of_cons.
      split; [auto | intros [[=]|?]; assumption].
Qed.

(** X1.  With [AUTH_ENABLE_STUB_LOGIN] off, both dispatchers throw the
    404 with a [null] body for every endpoint and every request, and the
    module's state is exactly as before: no code is drawn, no token is
    minted, the cache and the timers are as they were. *)
Theorem disabled_provider_serves_nothing (env : ServerEnvironment) (entropy : nat -> ascii) (skew : nat -> Z)
    (endpoint : option string) (request : Request) (w : World) :
  AUTH_ENABLE_STUB_LOGIN env = false ->
  loader env entropy skew endpoint request w = (Thrown (mkReply 404 BNull None), w)
  /\ action env endpoint request w = (Thrown (mkReply 404 BNull None), w).
Proof.
  intros Hoff. unfold loader, action. rewrite Hoff. split; reflexivity.
Qed.

Lemma disabled_provider_serves_nothing_witness :
  AUTH_ENABLE_STUB_LOGIN MoreSamples.envOff = false
  /\ loader MoreSamples.envOff Samples.entropy Samples.skew (Some "authorize")
       Samples.authorizeRequest Samples.world
     = (Thrown (mkReply 404 BNull None), Samples.world).
Proof.
  split; [reflexivity|].
  apply (disabled_provider_serves_nothing MoreSamples.envOff Samples.entropy Samples.skew
           (Some "authorize") Samples.authorizeRequest Samples.world eq_refl).
Defined.



Lemma append_assoc (a b c : string) : (a +:+ b) +:+ c = a +:+ (b +:+ c).
Proof.
  induction a as [|x a IH]; [reflexivity|].
  change (String x ((a +:+ b) +:+ c) = String x (a +:+ (b +:+ c))).
  f_equal. exact IH.
Qed.

(** X3.  The discovery document and the dispatchers agree: with the flag
    on, each of the four endpoint URLs the document advertises is the
    route's base under the request's origin followed by an endpoint name
    that its dispatcher hands to a handler (GET for authorize, jwks and
    userinfo, POST for token), and for jwks, userinfo and token the
    dispatcher returns a response. *)
Theorem discovery_points_at_served_endpoints (env : ServerEnvironment)
    (entropy : nat -> ascii) (skew : nat -> Z) (request : Request) (w : World) :
  AUTH_ENABLE_STUB_LOGIN env = true ->
  exists m : Metadata,
    loader env entropy skew (Some ".well-known/openid-configuration") request w
    = (Returned (mkReply 200 (BMetadata m) None), w)
    /\ Forall (fun ue : string * string =>
                 ue.1 = origin request +:+ "/auth/raoidc/" +:+ ue.2
                 /\ reachedHandler (fst (loader env entropy skew (Some ue.2) request w)) = true)
              [(authorization_endpoint m, "authorize");
               (jwks_uri m, ".well-known/jwks");
               (userinfo_endpoint m, "userinfo")]
    /\ Forall (fun name : string =>
                 isReturned (fst (loader env entropy skew (Some name) request w)) = true)
              [".well-known/jwks"; "userinfo"]
    /\ token_endpoint m = origin request +:+ "/auth/raoidc/" +:+ "token"
    /\ isReturned (fst (action env (Some "token") request w)) = true.
Proof.
  intros Hon.
  eexists. split.
  { unfold loader. rewrite Hon. cbn. reflexivity. }
  cbn [authorization_endpoint jwks_uri userinfo_endpoint token_endpoint].
  unfold resolveUrl. split; [|split; [|split]].
  - repeat constructor; cbn [fst snd]; try (rewrite append_assoc; reflexivity).
    + unfold loader. rewrite Hon. cbn. unfold bind.
      destruct (handleAuthorizeRequest env entropy skew request w) as [[r|] w0]; reflexivity.
    + unfold loader. rewrite Hon. reflexivity.
    + unfold loader. rewrite Hon. cbn. unfold bind.
      destruct (handleUserinfoRequest env skew request w). reflexivity.
  - repeat constructor.
    + unfold loader. rewrite Hon. reflexivity.
    + unfold loader. rewrite Hon. cbn. unfold bind.
      destruct (handleUserinfoRequest env skew request w). reflexivity.
  - rewrite append_assoc. reflexivity.
  - unfold action. rewrite Hon. cbn. unfold bind.
    destruct (handleTokenRequest env request w). reflexivity.
Qed.

Lemma discovery_points_at_served_endpoints_witness :
  AUTH_ENABLE_STUB_LOGIN Samples.env = true
  /\ exists m : Metadata,
       loader Samples.env Samples.entropy Samples.skew (Some ".well-known/openid-configuration")
         Samples.authorizeRequest Samples.world
       = (Returned (mkReply 200 (BMetadata m) None), Samples.world)
       /\ token_endpoint m = "https://app.example/auth/raoidc/token".
Proof.
  split; [reflexivity|].
  destruct (discovery_points_at_served_endpoints Samples.env Samples.entropy Samples.skew
              Samples.authorizeRequest Samples.world eq_refl)
    as (m & Hm & _ & _ & Htok & _).
  exists m. split; [exact Hm | exact Htok].
Defined.

(** X4.  What the provider publishes matches what it mints: the key set
    has one key, the provider's public signing key, and in any run every
    minted token names that key's [kid] and [alg] in its header, carries
    the issuer the discovery document gives, and passes the signature
    check against the published key exactly when the configured private
    signing key is the private half of it. *)
Theorem published_key_matches_minted_tokens (env : ServerEnvironment)
    (entropy : nat -> ascii) (skew : nat -> Z) (request : Request) (evs : list Event) (t : Z) :
  exists (k : Jwk) (m : Metadata),
    reply_body (handleJwksRequest env request) = BJwks [k]
    /\ reply_body (handleMetadataRequest env request) = BMetadata m
    /\ jwk_key k = AUTH_SERVER_PUBLIC_KEY env
    /\ Forall (fun kt : TokenKind * JWE =>
                 jws_header (jwe_plaintext kt.2) = Some (mkJWSHeader (jwk_alg k) (jwk_kid k))
                 /\ iss (claimsOf kt.2) = Some (issuer m)
                 /\ verifies (jwe_plaintext kt.2) (jwk_key k)
                    = PublicKey_eqb (publicOf (AUTH_SERVER_PRIVATE_KEY env))
                                    (AUTH_SERVER_PUBLIC_KEY env))
              (minted (run env entropy skew evs (boot t))).
Proof.
  eexists _, _. split; [reflexivity|]. split; [reflexivity|]. split; [reflexivity|].
  eapply Forall_impl; [apply boot_minted|].
  intros [k tok] (t1 & t2 & t3 & extra & Heq). cbn in Heq. subst tok.
  repeat split.
Qed.

(** *** What the cache holds *)

Lemma fired_lookup_Some (l : list Timer) (m : gmap string TokenSet) (c : string)
    (v : TokenSet) :
  foldr (fun tm acc => delete (target tm) acc) m l !! c = Some v ->
  m !! c = Some v /\ Forall (fun tm => target tm <> c) l.
Proof.
  induction l as [|tm l IH]; cbn [foldr]; intros Hv; [split; [exact Hv | constructor]|].
  destruct (decide (target tm = c)) as [<-|Hne].
  - rewrite lookup_delete_eq in Hv. discriminate.
  - rewrite lookup_delete_ne in Hv by exact Hne.
    destruct (IH Hv) as [Hm Hall]. split; [exact Hm | constructor; assumption].
Qed.

Section CacheInvariants.

Variable env : ServerEnvironment.
Variable entropy : nat -> ascii.
Variable skew : nat -> Z.

Lemma advance_scheduled (t : Z) (w : World) : scheduled w -> scheduled (advance t w).
Proof.
  intros [Hdue Hcov]. split.
  - apply Forall_forall. intros tm Hin.
    apply advance_pending in Hin as [Hin Hlt].
    rewrite Forall_forall in Hdue. destruct (Hdue tm Hin) as [_ Hle].
    split; [exact Hlt|]. rewrite advance_now. lia.
  - intros c [v Hv]. unfold advance in Hv. cbn [tokenCache] in Hv.
    apply fired_lookup_Some in Hv as [Hv Hnot].
    destruct (Hcov c (ex_intro _ v Hv)) as (tm & Hin & Htarget).
    exists tm. split; [|exact Htarget].
    unfold advance. cbn [timers]. apply list_elem_of_filter. split; [|exact Hin].
    destruct (isDue (Z.max t (now w)) tm) eqn:Hfired; [|reflexivity].
    rewrite Forall_forall in Hnot. exfalso. apply (Hnot tm); [|exact Htarget].
    apply list_elem_of_filter. split; assumption.
Qed.

Lemma advance_backed (t : Z) (w : World) : backed w -> backed (advance t w).
Proof.
  intros Hw c pair Hpair. unfold advance in Hpair. cbn [tokenCache] in Hpair.
  apply fired_lookup_Some in Hpair as [Hpair _]. apply (Hw c pair Hpair).
Qed.

Lemma authorize_scheduled (request : Request) (w : World) :
  scheduled w -> scheduled (snd (handleAuthorizeRequest env entropy skew request w)).
Proof.
  intros Hw.
  destruct (firstFailing (authorizeHolds env request) authorizeOrder) as [chk|] eqn:Hchk.
  - rewrite (authorize_rejects env entropy skew _ _ _ Hchk). exact Hw.
  - destruct (authorize_accepts env entropy skew request w Hchk) as (nonce & state & _ & _ & ->).
    cbn zeta. cbn [snd]. destruct Hw as [Hdue Hcov]. split; cbn [now timers tokenCache].
    + apply Forall_app. split; [exact Hdue|].
      constructor; [|constructor]. cbn [due]. lia.
    + intros c Hc. destruct (decide (draw entropy (rngPos w) 32 = c)) as [<-|Hne].
      * eexists. split; [apply elem_of_app; right; apply list_elem_of_singleton; reflexivity|].
        reflexivity.
      * rewrite lookup_insert_ne in Hc by exact Hne.
        destruct (Hcov c Hc) as (tm & Hin & Htarget).
        exists tm. split; [apply elem_of_app; left; exact Hin | exact Htarget].
Qed.

Lemma authorize_backed (request : Request) (w : World) :
  backed w -> backed (snd (handleAuthorizeRequest env entropy skew request w)).
Proof.
  intros Hw.
  destruct (firstFailing (authorizeHolds env request) authorizeOrder) as [chk|] eqn:Hchk.
  - rewrite (authorize_rejects env entropy skew _ _ _ Hchk). exact Hw.
  - destruct (authorize_accepts env entropy skew request w Hchk) as (nonce & state & _ & _ & ->).
    cbn zeta. cbn [snd]. intros c pair. cbn [tokenCache minted].
    destruct (decide (draw entropy (rngPos w) 32 = c)) as [<-|Hne].
    + rewrite lookup_insert_eq. intros [= <-]. cbn [accessToken idToken].
      split; apply elem_of_app; right.
      * apply elem_of_cons. left. reflexivity.
      * apply elem_of_cons. right. apply list_elem_of_singleton. reflexivity.
    + rewrite lookup_insert_ne by exact Hne. intros Hpair.
      destruct (Hw c pair Hpair). split; apply elem_of_app; left; assumption.
Qed.

Lemma token_scheduled (request : Request) (w : World) :
  scheduled w -> scheduled (snd (handleTokenRequest env request w)).
Proof.
  intros Hw.
  destruct (firstFailing (tokenHolds env request) tokenOrder) as [chk|] eqn:Hchk.
  - rewrite (token_rejects env _ _ _ Hchk). exact Hw.
  - destruct (token_accepts env request w Hchk) as (code & _ & ->). cbn [snd].
    destruct Hw as [Hdue Hcov]. split; cbn [now timers tokenCache].
    + apply Forall_app. split; [exact Hdue|].
      constructor; [|constructor]. cbn [due]. lia.
    + intros c Hc. destruct (Hcov c Hc) as (tm & Hin & Htarget).
      exists tm. split; [apply elem_of_app; left; exact Hin | exact Htarget].
Qed.

Lemma token_backed (request : Request) (w : World) :
  backed w -> backed (snd (handleTokenRequest env request w)).
Proof.
  intros Hw.
  destruct (firstFailing (tokenHolds env request) tokenOrder) as [chk|] eqn:Hchk.
  - rewrite (token_rejects env _ _ _ Hchk). exact Hw.
  - destruct (token_accepts env request w Hchk) as (code & _ & ->). exact Hw.
Qed.

Lemma userinfo_scheduled (request : Request) (w : World) :
  scheduled w -> scheduled (snd (handleUserinfoRequest env skew request w)).
Proof. intros Hw. exact Hw. Qed.

Lemma userinfo_backed (request : Request) (w : World) :
  backed w -> backed (snd (handleUserinfoRequest env skew request w)).
Proof.
  intros Hw c pair Hpair. destruct (Hw c pair Hpair) as [Ha Hi].
  split; apply elem_of_app; left; assumption.
Qed.

Lemma step_scheduled (ev : Event) (w : World) :
  scheduled w -> scheduled (snd (step env entropy skew ev w)).
Proof.
  intros Hw. destruct ev as [t request|t request|t request|t]; cbn [step].
  - destruct (handleAuthorizeRequest env entropy skew request (advance t w)) as [r w'] eqn:Hh.
    change w' with (snd (r, w')). rewrite <- Hh.
    apply authorize_scheduled, advance_scheduled, Hw.
  - destruct (handleTokenRequest env request (advance t w)) as [r w'] eqn:Hh.
    change w' with (snd (r, w')). rewrite <- Hh.
    apply token_scheduled, advance_scheduled, Hw.
  - destruct (handleUserinfoRequest env skew request (advance t w)) as [r w'] eqn:Hh.
    change w' with (snd (r, w')). rewrite <- Hh.
    apply userinfo_scheduled, advance_scheduled, Hw.
  - apply advance_scheduled, Hw.
Qed.

Lemma step_backed (ev : Event) (w : World) :
  backed w -> backed (snd (step env entropy skew ev w)).
Proof.
  intros Hw. destruct ev as [t request|t request|t request|t]; cbn [step].
  - destruct (handleAuthorizeRequest env entropy skew request (advance t w)) as [r w'] eqn:Hh.
    change w' with (snd (r, w')). rewrite <- Hh.
    apply authorize_backed, advance_backed, Hw.
  - destruct (handleTokenRequest env request (advance t w)) as [r w'] eqn:Hh.
    change w' with (snd (r, w')). rewrite <- Hh.
    apply token_backed, advance_backed, Hw.
  - destruct (handleUserinfoRequest env skew request (advance t w)) as [r w'] eqn:Hh.
    change w' with (snd (r, w')). rewrite <- Hh.
    apply userinfo_backed, advance_backed, Hw.
  - apply advance_backed, Hw.
Qed.

Lemma run_scheduled (evs : list Event) (w : World) :
  scheduled w -> scheduled (run env entropy skew evs w).
Proof.
  revert w. induction evs as [|ev evs IH]; intros w Hw; cbn [run]; [exact Hw|].
  apply IH, step_scheduled, Hw.
Qed.

Lemma run_backed (evs : list Event) (w : World) :
  backed w -> backed (run env entropy skew evs w).
Proof.
  revert w. induction evs as [|ev evs IH]; intros w Hw; cbn [run]; [exact Hw|].
  apply IH, step_backed, Hw.
Qed.

Lemma boot_scheduled (t : Z) : scheduled (boot t).
Proof.
  split; [constructor|]. intros c [v Hv]. cbn in Hv. rewrite lookup_empty in Hv. discriminate.
Qed.

Lemma boot_backed (t : Z) : backed (boot t).
Proof. intros c pair Hpair. cbn in Hpair. rewrite lookup_empty in Hpair. discriminate. Qed.

End CacheInvariants.

(** X5.  The cache cleans up after itself: however a process has run
    since it started, once the clock is 30 seconds further on the cache
    is empty and no timer is pending. *)
Theorem cache_drains_within_30s (env : ServerEnvironment) (entropy : nat -> ascii) (skew : nat -> Z)
    (evs : list Event) (t0 t : Z) :
  let w := run env entropy skew evs (boot t0) in
  now w + 30000 <= t ->
  tokenCache (advance t w) = ∅ /\ timers (advance t w) = [].
Proof.
  intros w Hlate.
  destruct (run_scheduled env entropy skew evs (boot t0) (boot_scheduled t0)) as [Hdue Hcov].
  fold w in Hdue, Hcov.
  assert (Hall : Forall (fun tm => isDue (Z.max t (now w)) tm = true) (timers w)).
  { eapply Forall_impl; [exact Hdue|]. intros tm [_ Hle].
    unfold isDue. apply Z.leb_le. lia. }
  split.
  - apply map_eq. intros c. rewrite lookup_empty.
    unfold advance. cbn [tokenCache].
    destruct (tokenCache w !! c) as [v|] eqn:Hv; [|apply fired_lookup_None, Hv].
    destruct (Hcov c (ex_intro _ v Hv)) as (tm & Hin & <-).
    apply fired_lookup_target, list_elem_of_filter. split; [|exact Hin].
    rewrite Forall_forall in Hall. apply Hall, Hin.
  - unfold advance. cbn [timers]. clear Hdue Hcov.
    induction Hall as [|tm l Htm _ IH]; [reflexivity|].
    rewrite filter_cons. destruct (decide (isDue (Z.max t (now w)) tm = false)) as [Hf|_].
    + congruence.
    + exact IH.
Qed.

Lemma cache_drains_within_30s_witness :
  now (run Samples.env Samples.entropy Samples.skew
         [GetAuthorize 0 Samples.authorizeRequest;
          PostToken 1000 (Samples.tokenRequest Samples.code)]
         (boot 0)) + 30000 <= 31000
  /\ tokenCache (advance 31000
                   (run Samples.env Samples.entropy Samples.skew
                      [GetAuthorize 0 Samples.authorizeRequest;
                       PostToken 1000 (Samples.tokenRequest Samples.code)]
                      (boot 0))) = ∅.
Proof.
  assert (H : now (run Samples.env Samples.entropy Samples.skew
                     [GetAuthorize 0 Samples.authorizeRequest;
                      PostToken 1000 (Samples.tokenRequest Samples.code)]
                     (boot 0)) + 30000 <= 31000) by (vm_compute; discriminate).
  split; [exact H|].
  apply (cache_drains_within_30s Samples.env Samples.entropy Samples.skew
           [GetAuthorize 0 Samples.authorizeRequest;
            PostToken 1000 (Samples.tokenRequest Samples.code)] 0 31000 H).
Defined.

(** X6.  The cache only ever holds what the provider minted: however a
    process has run since it started, the pair under any code is an
    access token and an id token of the log, so both came out of the
    generators with the configured issuer, audience and keys. *)
Theorem cache_holds_minted_pairs (env : ServerEnvironment) (entropy : nat -> ascii) (skew : nat -> Z)
    (evs : list Event) (t0 : Z) (c : string) :
  match tokenCache (run env entropy skew evs (boot t0)) !! c with
  | Some entry =>
      (Access, accessToken entry) ∈ minted (run env entropy skew evs (boot t0))
      /\ (Id, idToken entry) ∈ minted (run env entropy skew evs (boot t0))
      /\ fromCodec env (Access, accessToken entry)
      /\ fromCodec env (Id, idToken entry)
  | None => True
  end.
Proof.
  destruct (tokenCache _ !! c) as [entry|] eqn:Hentry; [|exact I].
  destruct (run_backed env entropy skew evs (boot t0) (boot_backed t0) c entry Hentry) as [Ha Hi].
  pose proof (boot_minted env entropy skew evs t0) as Hlog. rewrite Forall_forall in Hlog.
  repeat split; try assumption; apply Hlog; assumption.
Qed.

(** *** Redirects, exchanges, userinfo *)

Lemma authorize_ok_redirect (env : ServerEnvironment) (request : Request) :
  firstFailing (authorizeHolds env request) authorizeOrder = None ->
  redirectUriAllowed request (params_get (searchParams request) "redirect_uri") = true.
Proof.
  unfold firstFailing, authorizeOrder. cbn [List.find authorizeHolds].
  destruct (bool_decide _); cbn [negb]; [|discriminate].
  destruct (present _); cbn [negb]; [|discriminate].
  destruct (redirectUriAllowed _ _); cbn [negb]; [reflexivity | discriminate].
Qed.

(** X7.  The authorize endpoint is no open redirector: a response with a
    [Location] goes to the callback of the request's own origin whenever
    a non-empty [redirect_uri] was given, and otherwise to the text that
    stands for the missing one ("null") or the empty one; in each case
    followed by [?code=<code>&state=<state>] with the [state] of the
    request, the whole as [headers.set] takes it.  A response without a
    [Location] is the 400, and no response at all is what a request that
    passed validation gets when its redirect throws. *)
Theorem authorize_redirects_to_own_callback (env : ServerEnvironment)
    (entropy : nat -> ascii) (skew : nat -> Z) (request : Request) (w : World) :
  let c := fst (handleAuthorizeRequest env entropy skew request w) in
  let uri := params_get (searchParams request) "redirect_uri" in
  match c with
  | Normal r =>
      match location r with
      | Some l =>
          exists tgt state : string,
            params_get (searchParams request) "state" = Some state
            /\ Headers_set (tgt +:+ "?code=" +:+ draw entropy (rngPos w) 32
                            +:+ "&state=" +:+ state) = Some l
            /\ tgt ∈ redirectTargets request
            /\ tgt = match truthy uri with
                     | Some _ => origin request +:+ "/auth/callback"
                     | None => interpolate uri
                     end
      | None => status r = 400
      end
  | TypeError => firstFailing (authorizeHolds env request) authorizeOrder = None
  end.
Proof.
  cbn zeta.
  destruct (firstFailing (authorizeHolds env request) authorizeOrder) as [chk|] eqn:Hchk.
  - rewrite (authorize_rejects env entropy skew _ _ _ Hchk). reflexivity.
  - destruct (authorize_accepts env entropy skew request w Hchk)
      as (nonce & state & _ & Hstate & ->).
    cbn zeta. cbn [fst]. unfold redirect.
    destruct (Headers_set _) as [l|] eqn:Hset; [|reflexivity].
    cbn [location].
    apply authorize_ok_redirect in Hchk.
    apply truthy_Some in Hstate as [Hstate _].
    exists (interpolate (params_get (searchParams request) "redirect_uri")), state.
    split; [exact Hstate|]. split; [exact Hset|].
    unfold redirectTargets.
    destruct (params_get (searchParams request) "redirect_uri") as [[|a u]|];
      cbn [interpolate truthy].
    + split; [|reflexivity]. apply elem_of_cons. right. apply elem_of_cons. right.
      apply list_elem_of_singleton. reflexivity.
    + cbn [redirectUriAllowed String.eqb] in Hchk.
      apply bool_decide_eq_true_1 in Hchk. unfold allowList in Hchk.
      apply list_elem_of_singleton in Hchk. rewrite Hchk.
      split; [|reflexivity]. apply elem_of_cons. left. reflexivity.
    + split; [|reflexivity]. apply elem_of_cons. right. apply elem_of_cons. left.
      reflexivity.
Qed.

(** X8.  A code exchanged in time gives back what its authorization
    minted: when a GET to [/authorize] succeeds with a code no older
    timer is aimed at, and the code is not handed out again, a POST to
    [/token] that passes validation and presents the code before the 30
    seconds are over is answered with the 200 carrying the access token
    and the id token minted at the authorization; the id token carries
    the [nonce] of the authorize request and the locale "en-CA", the
    access token no claims of its own. *)
Theorem exchange_returns_authorized_tokens (env : ServerEnvironment)
    (entropy : nat -> ascii) (skew : nat -> Z) (w : World) (t : Z) (request : Request)
    (evs : list Event) (t' : Z) (request' : Request) :
  let w0 := advance t w in
  let code := draw entropy (rngPos w) 32 in
  let w1 := snd (step env entropy skew (GetAuthorize t request) w) in
  let w2 := run env entropy skew evs w1 in
  firstFailing (authorizeHolds env request) authorizeOrder = None ->
  Forall (fun tm => target tm <> code) (timers w) ->
  code ∉ issued env entropy skew evs w1 ->
  firstFailing (tokenHolds env request') tokenOrder = None ->
  params_get (formData request') "code" = Some code ->
  Z.max t' (now w2) < now w0 + 30000 ->
  exists nonce : string,
    params_get (searchParams request) "nonce" = Some nonce
    /\ fst (step env entropy skew (PostToken t' request') w2)
       = Some (mkResponse 200
                 (Some (bearerBody
                          (mkTokenSet
                             (fst (generateAccessToken env skew nonce w0))
                             (fst (generateIdToken env skew "en-CA" nonce
                                     (snd (generateAccessToken env skew nonce w0)))))))
                 None)
    /\ custom (claimsOf (fst (generateIdToken env skew "en-CA" nonce
                                (snd (generateAccessToken env skew nonce w0)))))
       = [("locale", "en-CA"); ("nonce", nonce)]
    /\ custom (claimsOf (fst (generateAccessToken env skew nonce w0))) = [].
Proof.
  intros w0 code w1 w2 Hok Hfresh Hnot Hok' Hcode Hintime.
  destruct (authorize_accepts env entropy skew request w0 Hok)
    as (nonce & state & Hnonce & _ & Heq).
  unfold w0 in Heq at 2. rewrite advance_rngPos in Heq. cbn zeta in Heq. fold code in Heq.
  apply truthy_Some in Hnonce as [Hnonce _].
  exists nonce. split; [exact Hnonce|]. split; [|split; reflexivity].
  set (entry := mkTokenSet _ _).
  assert (Hhold : holding code (now w0 + 30000) (Some entry) w2).
  { apply run_holding; [exact Hnot|].
    subst w1. cbn [step]. fold w0. rewrite Heq. cbn [snd].
    split; cbn [now]; [lia|]. intros _. cbn [tokenCache timers].
    split; [apply lookup_insert_eq|].
    apply Forall_app. split.
    - apply Forall_forall. intros tm Hin Htarget.
      apply advance_pending in Hin as [Hin _].
      rewrite Forall_forall in Hfresh. destruct (Hfresh tm Hin Htarget).
    - constructor; [|constructor]. cbn [due]. intros _. lia. }
  apply (advance_holding _ _ t') in Hhold. destruct Hhold as [_ Hhold].
  destruct Hhold as [Hentry _]; [rewrite advance_now; exact Hintime|].
  cbn [step].
  destruct (token_accepts env request' (advance t' w2) Hok') as (code' & Hcode' & Hresp).
  assert (code' = code) as -> by congruence.
  rewrite Hresp. cbn [fst]. rewrite Hentry. reflexivity.
Qed.

Lemma exchange_returns_authorized_tokens_witness :
  firstFailing (authorizeHolds Samples.env Samples.authorizeRequest) authorizeOrder = None
  /\ firstFailing (tokenHolds Samples.env (Samples.tokenRequest Samples.code)) tokenOrder = None
  /\ exists nonce : string,
       params_get (searchParams Samples.authorizeRequest) "nonce" = Some nonce
       /\ fst (step Samples.env Samples.entropy Samples.skew
                 (PostToken 29999 (Samples.tokenRequest Samples.code))
                 (run Samples.env Samples.entropy Samples.skew [Tick 5000]
                    (snd (step Samples.env Samples.entropy Samples.skew
                            (GetAuthorize 0 Samples.authorizeRequest) Samples.world))))
          = Some (mkResponse 200
                    (Some (bearerBody
                             (mkTokenSet
                                (fst (generateAccessToken Samples.env Samples.skew nonce
                                        (advance 0 Samples.world)))
                                (fst (generateIdToken Samples.env Samples.skew "en-CA" nonce
                                        (snd (generateAccessToken Samples.env Samples.skew
                                                nonce (advance 0 Samples.world))))))))
                    None).
Proof.
  split; [reflexivity|]. split; [reflexivity|].
  destruct (exchange_returns_authorized_tokens Samples.env Samples.entropy Samples.skew Samples.world 0
              Samples.authorizeRequest [Tick 5000] 29999
              (Samples.tokenRequest Samples.code))
    as (nonce & Hn & Hr & _).
  - reflexivity.
  - constructor.
  - cbn. apply not_elem_of_nil.
  - reflexivity.
  - reflexivity.
  - vm_compute. reflexivity.
  - exists nonce. split; [exact Hn | exact Hr].
Defined.

(** X9.  The userinfo endpoint asks for no credentials and keeps nothing:
    whatever the cache holds, it answers 200 with a token for the client's
    key whose claims are the [birthdate], [locale] and [sin] of the query,
    each replaced by its default only when the parameter is missing (an
    empty value is kept), with the configured audience and issuer, and
    with [exp], [iat] and [nbf] taken from the builder's three readings
    of the clock, in that order; the only trace it leaves is the token in
    the log. *)
Theorem userinfo_claims_and_defaults (env : ServerEnvironment) (skew : nat -> Z)
    (request : Request) (w : World) :
  let q := params_get (searchParams request) in
  let r := fst (handleUserinfoRequest env skew request w) in
  let w' := snd (handleUserinfoRequest env skew request w) in
  exists tok : JWE,
    r = mkResponse 200 (Some [("userinfo_token", JCompact tok)]) None
    /\ custom (claimsOf tok)
       = [("birthdate", match q "birthdate" with Some b => b | None => "2000-01-01" end);
          ("locale", match q "locale" with Some l => l | None => "en-CA" end);
          ("sin", match q "sin" with Some s => s | None => "00000000" end)]
    /\ jwe_recipient tok = AUTH_CLIENT_PUBLIC_KEY env
    /\ aud (claimsOf tok) = Some (AUTH_RAOIDC_CLIENT_ID env)
    /\ iss (claimsOf tok) = Some (AUTH_RAOIDC_ISSUER env)
    /\ exp (claimsOf tok)
       = Some (epoch (now w + skew (3 * length (minted w))%nat) + 20 * 60)%Z
    /\ iat (claimsOf tok)
       = Some (epoch (now w + skew (3 * length (minted w) + 1)%nat))
    /\ nbf (claimsOf tok)
       = Some (epoch (now w + skew (3 * length (minted w) + 2)%nat) - 30)%Z
    /\ now w' = now w /\ tokenCache w' = tokenCache w /\ timers w' = timers w
    /\ rngPos w' = rngPos w
    /\ minted w' = (minted w ++ [(Userinfo, tok)])%list.
Proof.
  cbn zeta. unfold handleUserinfoRequest, bind. rewrite generateUserinfoToken_codec.
  cbn zeta. cbn [fst snd]. eexists. split; [reflexivity|].
  split.
  { cbn. destruct (params_get (searchParams request) "birthdate"),
                  (params_get (searchParams request) "locale"),
                  (params_get (searchParams request) "sin"); reflexivity. }
  repeat split.
Qed.

(* ================================================================== *)
(** ** The session through login, callback and logout *)
(* ================================================================== *)

Section SessionFacts.

Variables IdTokenClaims UserinfoTokenClaims Net Err : Type.
Variable deps : AuthRoutes.Deps IdTokenClaims UserinfoTokenClaims Net Err.

(** X10.  The callback never leaves a half-built session: it throws and
    the session is as it was; or it returns the 400 and the session is as
    it was; or it returns the 302 and the session holds an [authState],
    no [loginState] and no [stubloginState], with its [letterState]
    kept. *)
Theorem callback_all_or_nothing (request : Request)
    (session : Callback.Session IdTokenClaims UserinfoTokenClaims) (net : Net) :
  let r := AuthRoutes.handleCallback deps request session net in
  match Callback.outcome _ _ _ _ r with
  | Callback.Threw _ _ => Callback.session' _ _ _ _ r = session
  | Callback.Returned _ resp =>
      if (status resp =? 302)%Z then
        is_Some (Callback.authState _ _ (Callback.session' _ _ _ _ r))
        /\ Callback.loginState _ _ (Callback.session' _ _ _ _ r) = None
        /\ Callback.stubloginState _ _ (Callback.session' _ _ _ _ r) = None
        /\ Callback.letterState _ _ (Callback.session' _ _ _ _ r)
           = Callback.letterState _ _ session
      else status resp = 400 /\ Callback.session' _ _ _ _ r = session
  end.
Proof.
  cbn zeta. unfold AuthRoutes.handleCallback, Callback.handleCallback.
  destruct (Callback.loginState _ _ session) as [ls|]; [|cbn; split; reflexivity].
  destruct (AuthRoutes.getRaoidcClient deps net) as [[e|u] net1]; [reflexivity|].
  destruct (AuthRoutes.handleCallbackRequest deps _ net1) as [[e|tokens] net2];
    [reflexivity|].
  cbn. repeat split. eexists; reflexivity.
Qed.

(** X11.  A successful callback consumes the login state, once: with a
    [loginState] in the session, a client that can be obtained and an
    exchange that succeeds on the stored verifier, nonce and state, the
    callback redirects to the stored return URL (the origin's [/en]
    without one), stores the exchanged tokens as [authState] and drops
    [loginState] and [stubloginState]; any further callback on that
    session is answered with the 400 "Invalid login state" without the
    client being called. *)
Theorem callback_consumes_login_state (request : Request)
    (session : Callback.Session IdTokenClaims UserinfoTokenClaims) (net net1 net2 : Net)
    (ls : Callback.LoginState)
    (tokens : Callback.TokenSet IdTokenClaims UserinfoTokenClaims) :
  Callback.loginState _ _ session = Some ls ->
  fst (AuthRoutes.getRaoidcClient deps net) = inr tt ->
  snd (AuthRoutes.getRaoidcClient deps net) = net1 ->
  AuthRoutes.handleCallbackRequest deps
    (Callback.mkCallbackArgs request
       (Callback.codeVerifier ls) (Callback.nonce ls) (Callback.state ls)
       (origin request +:+ "/auth/callback")
       (if AuthRoutes.AUTH_ENABLE_STUB_LOGIN deps
        then Callback.mkStubloginState
               (Callback.stubloginState _ _ session ≫= Callback.birthdate)
               (Callback.stubloginState _ _ session ≫= Callback.locale)
               (Callback.stubloginState _ _ session ≫= Callback.sin)
        else Callback.mkStubloginState None None None))
    net1
  = (inr tokens, net2) ->
  let r := AuthRoutes.handleCallback deps request session net in
  Callback.outcome _ _ _ _ r
  = Callback.Returned _
      (redirectUrl (match Callback.returnUrl ls with
                 | Some url => url
                 | None => origin request +:+ "/en"
                 end))
  /\ Callback.session' _ _ _ _ r
     = Callback.mkSession _ _
         (Some (Callback.mkAuthState _ _
                  (Callback.ts_accessToken _ _ tokens)
                  (Callback.ts_idToken _ _ tokens)
                  (Callback.ts_userinfoToken _ _ tokens)))
         (Callback.letterState _ _ session) None None
  /\ Callback.net' _ _ _ _ r = net2
  /\ forall (request' : Request) (net' : Net),
       let r' := AuthRoutes.handleCallback deps request'
                   (Callback.session' _ _ _ _ r) net' in
       Callback.outcome _ _ _ _ r'
       = Callback.Returned _
           (mkResponse 400 (Some [("message", JString "Invalid login state")]) None)
       /\ Callback.net' _ _ _ _ r' = net'
       /\ Callback.session' _ _ _ _ r' = Callback.session' _ _ _ _ r.
Proof.
  intros Hls Hclient Hnet1 Hexchange. cbn zeta.
  unfold AuthRoutes.handleCallback, Callback.handleCallback. rewrite Hls.
  destruct (AuthRoutes.getRaoidcClient deps net) as [[e|[]] net1'] eqn:Hc;
    cbn [fst snd] in Hclient, Hnet1; [discriminate|]. subst net1'.
  rewrite Hexchange. cbn.
  split; [destruct (Callback.returnUrl ls); reflexivity|].
  repeat split.
Qed.

(** X12.  With [AUTH_ENABLE_STUB_LOGIN] off, the stub-login data of the
    session never reaches the client: two sessions that differ only in
    their [stubloginState] give the same outcome, the same network
    activity and the same span. *)
Theorem callback_ignores_stub_state_when_disabled (request : Request) (net : Net)
    (auth : option (Callback.AuthState IdTokenClaims UserinfoTokenClaims))
    (letters : option (list Callback.Letter)) (login : option Callback.LoginState)
    (stub1 stub2 : option Callback.StubloginState) :
  AuthRoutes.AUTH_ENABLE_STUB_LOGIN deps = false ->
  let r1 := AuthRoutes.handleCallback deps request
              (Callback.mkSession _ _ auth letters login stub1) net in
  let r2 := AuthRoutes.handleCallback deps request
              (Callback.mkSession _ _ auth letters login stub2) net in
  match Callback.outcome _ _ _ _ r1, Callback.outcome _ _ _ _ r2 with
  | Callback.Returned _ a, Callback.Returned _ b => a = b
  | Callback.Threw _ a, Callback.Threw _ b => a = b
  | _, _ => False
  end
  /\ Callback.net' _ _ _ _ r1 = Callback.net' _ _ _ _ r2
  /\ Callback.span _ _ _ _ r1 = Callback.span _ _ _ _ r2.
Proof.
  intros Hoff. cbn zeta.
  unfold AuthRoutes.handleCallback, Callback.handleCallback. rewrite Hoff.
  cbn [Callback.loginState Callback.stubloginState].
  destruct login as [ls|]; [|cbn; repeat split].
  destruct (AuthRoutes.getRaoidcClient deps net) as [[e|u] net1]; [cbn; repeat split|].
  destruct (AuthRoutes.handleCallbackRequest deps _ net1) as [[e|tokens] net2];
    cbn; repeat split.
Qed.

(** X13.  Every run of the callback, the login and the logout route opens
    its span with the request URL and closes it exactly once, as the last
    call, whether the route returns or throws. *)
Theorem spans_end_exactly_once (request : Request)
    (session : Callback.Session IdTokenClaims UserinfoTokenClaims) (net : Net) :
  Forall (fun sp : list Callback.SpanCall =>
            exists mid : list Callback.SpanCall,
              sp = (Callback.SetAttribute "request_url" (href request) :: mid
                    ++ [Callback.SpanEnd])%list
              /\ Callback.SpanEnd ∉ mid)
         [Callback.span _ _ _ _ (AuthRoutes.handleCallback deps request session net);
          AuthRoutes.span (AuthRoutes.handleLogin deps request session net);
          AuthRoutes.span (AuthRoutes.handleLogout deps request session net)].
Proof.
  assert (Hno : forall l : list Callback.SpanCall,
             Forall (fun c => c <> Callback.SpanEnd) l -> Callback.SpanEnd ∉ l).
  { intros l Hl Hin. rewrite Forall_forall in Hl. exact (Hl _ Hin eq_refl). }
  assert (Hshape : forall (x : Callback.SpanCall) (mid : list Callback.SpanCall),
             Forall (fun c => c <> Callback.SpanEnd) mid ->
             exists mid' : list Callback.SpanCall,
               (x :: mid ++ [Callback.SpanEnd])%list
               = (x :: mid' ++ [Callback.SpanEnd])%list
               /\ Callback.SpanEnd ∉ mid').
  { intros x mid Hmid. exists mid. split; [reflexivity | apply Hno, Hmid]. }
  constructor; [|constructor; [|constructor; [|constructor]]].
  - unfold AuthRoutes.handleCallback, Callback.handleCallback.
    destruct (Callback.loginState _ _ session) as [ls|].
    2:{ apply (Hshape _ [_]). repeat constructor; discriminate. }
    destruct (AuthRoutes.getRaoidcClient deps net) as [[e|u] net1].
    { unfold Callback.withSpan, Callback.handleSpanException.
      cbn [Callback.outcome Callback.span].
      destruct (AuthRoutes.isResponse deps e).
      - apply (Hshape _ [_; _]). repeat constructor; discriminate.
      - apply (Hshape _ [_; _; _; _; _]). repeat constructor; discriminate. }
    destruct (AuthRoutes.handleCallbackRequest deps _ net1) as [[e|tokens] net2].
    { unfold Callback.withSpan, Callback.handleSpanException.
      cbn [Callback.outcome Callback.span].
      destruct (AuthRoutes.isResponse deps e).
      - apply (Hshape _ [_; _]). repeat constructor; discriminate.
      - apply (Hshape _ [_; _; _; _; _]). repeat constructor; discriminate. }
    apply (Hshape _ [_; _; _]). repeat constructor; discriminate.
  - unfold AuthRoutes.handleLogin.
    destruct (match truthy (params_get (searchParams request) "returnto") with
              | Some path => negb (AuthRoutes.startsWithSlash path)
              | None => false
              end).
    { apply (Hshape _ [_; _]). repeat constructor; discriminate. }
    destruct (AuthRoutes.getRaoidcClient deps net) as [[e|u] net1].
    { unfold AuthRoutes.withSpan, AuthRoutes.handleSpanException.
      cbn [AuthRoutes.outcome AuthRoutes.span].
      destruct (AuthRoutes.isResponse deps e).
      - apply (Hshape _ [_; _]). repeat constructor; discriminate.
      - apply (Hshape _ [_; _; _; _; _]). repeat constructor; discriminate. }
    destruct (match truthy (params_get (searchParams request) "returnto") with
              | Some path =>
                  match AuthRoutes.newURL deps path (origin request) with
                  | Some url => Some (Some url)
                  | None => None
                  end
              | None => Some None
              end) as [returnUrl|].
    2:{ unfold AuthRoutes.withSpan, AuthRoutes.handleSpanException.
        cbn [AuthRoutes.outcome AuthRoutes.span].
        apply (Hshape _ [_; _; _; _; _]). repeat constructor; discriminate. }
    destruct (AuthRoutes.generateSigninRequest deps _ net1) as [signin net2].
    apply (Hshape _ [_; _; _]). repeat constructor; discriminate.
  - unfold AuthRoutes.handleLogout.
    destruct (Callback.authState _ _ session) as [auth|].
    2:{ apply (Hshape _ [_]). repeat constructor; discriminate. }
    destruct (AuthRoutes.getRaoidcClient deps net) as [[e|u] net1].
    { unfold AuthRoutes.withSpan, AuthRoutes.handleSpanException.
      cbn [AuthRoutes.outcome AuthRoutes.span].
      destruct (AuthRoutes.isResponse deps e).
      - apply (Hshape _ []). constructor.
      - apply (Hshape _ [_; _; _]). repeat constructor; discriminate. }
    apply (Hshape _ []). constructor.
Qed.


(** X15.  What a logout can do.  Without an [authState] it redirects to
    the RASCL logout URL, the session and the network untouched.  With
    one it throws with the session untouched, or it redirects to the
    sign-out URL made from the [sub] of the id token and the [lang] of
    the query ("en" when there is none) and the session is left with its
    [letterState] only.  So a logout that returns always leaves a session
    without [authState]. *)
Theorem logout_outcomes (request : Request)
    (session : Callback.Session IdTokenClaims UserinfoTokenClaims) (net : Net) :
  let r := AuthRoutes.handleLogout deps request session net in
  match AuthRoutes.outcome r with
  | AuthRoutes.Returned resp =>
      Callback.authState _ _ (AuthRoutes.session' r) = None
      /\ match Callback.authState _ _ session with
         | None =>
             resp = AuthRoutes.replyRedirect (AuthRoutes.AUTH_RAOIDC_RASCL_LOGOUT_URL deps)
             /\ AuthRoutes.session' r = session
             /\ AuthRoutes.net' r = net
         | Some auth =>
             resp = AuthRoutes.replyRedirect
                      (AuthRoutes.generateSignoutRequest deps
                         (AuthRoutes.sub deps (Callback.idTokenClaims _ _ auth))
                         (match params_get (searchParams request) "lang" with
                          | Some lang => lang
                          | None => "en"
                          end))
             /\ AuthRoutes.session' r
                = Callback.mkSession _ _ None (Callback.letterState _ _ session) None None
         end
  | AuthRoutes.ReturnedUndefined => False
  | AuthRoutes.Threw _ =>
      AuthRoutes.session' r = session /\ is_Some (Callback.authState _ _ session)
  end.
Proof.
  cbn zeta. unfold AuthRoutes.handleLogout.
  destruct (Callback.authState _ _ session) as [auth|] eqn:Hauth.
  - destruct (AuthRoutes.getRaoidcClient deps net) as [[e|u] net1].
    + cbn. split; [reflexivity | eexists; reflexivity].
    + cbn. split; [reflexivity|]. split; [|reflexivity].
      destruct (params_get (searchParams request) "lang"); reflexivity.
  - cbn. repeat split. exact Hauth.
Qed.


(** X17.  Login and callback fit together: when a login returns its
    redirect, a callback on the session it leaves passes to the client
    exactly the verifier, nonce and state of the sign-in request the login
    generated, with the callback URL of its own origin; and when that
    exchange succeeds the browser is sent to the [returnto] of the login,
    resolved against the login's origin (the callback origin's [/en] when
    the login had none), with the exchanged tokens as [authState].  A
    login whose [returnto] does not resolve throws instead, and leaves
    the session as it was. *)
Theorem login_then_callback (request request' : Request)
    (session : Callback.Session IdTokenClaims UserinfoTokenClaims)
    (net net1 net2 net3 net4 net5 : Net)
    (signin : AuthRoutes.SigninRequest)
    (tokens : Callback.TokenSet IdTokenClaims UserinfoTokenClaims) :
  let returnTo := params_get (searchParams request) "returnto" in
  match truthy returnTo with
  | Some path => AuthRoutes.startsWithSlash path = true
  | None => True
  end ->
  AuthRoutes.getRaoidcClient deps net = (inr tt, net1) ->
  AuthRoutes.generateSigninRequest deps (origin request +:+ "/auth/callback") net1
  = (signin, net2) ->
  AuthRoutes.getRaoidcClient deps net3 = (inr tt, net4) ->
  AuthRoutes.handleCallbackRequest deps
    (Callback.mkCallbackArgs request'
       (AuthRoutes.sr_codeVerifier signin) (AuthRoutes.sr_nonce signin)
       (AuthRoutes.sr_state signin)
       (origin request' +:+ "/auth/callback")
       (if AuthRoutes.AUTH_ENABLE_STUB_LOGIN deps
        then Callback.mkStubloginState
               (params_get (searchParams request) "birthdate")
               (params_get (searchParams request) "locale")
               (params_get (searchParams request) "sin")
        else Callback.mkStubloginState None None None))
    net4
  = (inr tokens, net5) ->
  let r := AuthRoutes.handleLogin deps request session net in
  let r' := AuthRoutes.handleCallback deps request' (AuthRoutes.session' r) net3 in
  match match truthy returnTo with
        | Some path => AuthRoutes.newURL deps path (origin request)
        | None => Some (origin request' +:+ "/en")
        end
  with
  | Some target =>
      AuthRoutes.net' r = net2
      /\ Callback.outcome _ _ _ _ r' = Callback.Returned _ (redirectUrl target)
      /\ Callback.session' _ _ _ _ r'
         = Callback.mkSession _ _
             (Some (Callback.mkAuthState _ _
                      (Callback.ts_accessToken _ _ tokens)
                      (Callback.ts_idToken _ _ tokens)
                      (Callback.ts_userinfoToken _ _ tokens)))
             (Callback.letterState _ _ session) None None
      /\ Callback.net' _ _ _ _ r' = net5
  | None =>
      AuthRoutes.outcome r = AuthRoutes.Threw AuthRoutes.ThrownTypeError
      /\ AuthRoutes.session' r = session
      /\ AuthRoutes.net' r = net1
  end.
Proof.
  intros returnTo Hpath Hclient Hsignin Hclient' Hexchange. cbn zeta.
  unfold AuthRoutes.handleLogin. fold returnTo.
  assert (Hgo : match truthy returnTo with
                | Some path => negb (AuthRoutes.startsWithSlash path)
                | None => false
                end = false).
  { destruct (truthy returnTo); [rewrite Hpath|]; reflexivity. }
  rewrite Hgo, Hclient.
  destruct (truthy returnTo) as [path|];
    [destruct (AuthRoutes.newURL deps path (origin request)) as [url|];
       [|cbn; repeat split]|];
    rewrite Hsignin;
    unfold AuthRoutes.handleCallback, Callback.handleCallback;
    cbn [AuthRoutes.withSpan AuthRoutes.outcome AuthRoutes.session' AuthRoutes.net'
         Callback.loginState Callback.stubloginState Callback.letterState
         Callback.codeVerifier Callback.nonce Callback.state Callback.returnUrl];
    rewrite Hclient';
    cbn [mbind option_bind Callback.birthdate Callback.locale Callback.sin];
    rewrite Hexchange; cbn; repeat split.
Qed.

(** X18.  After a logout that returns, the session is anonymous for
    [requireAuth]: it throws the redirect to the login route without
    asking the provider. *)
Theorem logout_then_require_auth (request : Request) (loc : AuthRoutes.Location)
    (session : Callback.Session IdTokenClaims UserinfoTokenClaims) (net net' : Net) :
  let r := AuthRoutes.handleLogout deps request session net in
  match AuthRoutes.outcome r with
  | AuthRoutes.Returned _ =>
      AuthRoutes.requireAuth deps loc (AuthRoutes.session' r) net'
      = (inl (AuthRoutes.ThrownResponse
                (AuthRoutes.replyRedirect
                   ("/auth/login?returnto=" +:+ AuthRoutes.pathname loc
                    +:+ AuthRoutes.search loc))),
         net')
  | _ => True
  end.
Proof.
  cbn zeta. unfold AuthRoutes.handleLogout.
  destruct (Callback.authState _ _ session) as [auth|] eqn:Hauth.
  - destruct (AuthRoutes.getRaoidcClient deps net) as [[e|u] net1]; [exact I|].
    reflexivity.
  - cbn. unfold AuthRoutes.requireAuth. rewrite Hauth. reflexivity.
Qed.

End SessionFacts.

Lemma callback_consumes_login_state_witness :
  let session := AuthRoutes.session'
                   (AuthRoutes.handleLogin MoreSamples.deps MoreSamples.loginRequest
                      MoreSamples.nobody 0%nat) in
  is_Some (Callback.loginState _ _ session)
  /\ Callback.outcome _ _ _ _
       (AuthRoutes.handleCallback MoreSamples.deps Samples.callbackRequest session 2%nat)
     = Callback.Returned _ (redirectUrl "https://app.example/letters").
Proof.
  cbn zeta. split; [eexists; reflexivity|].
  exact (proj1 (callback_consumes_login_state _ _ _ _ MoreSamples.deps
                  Samples.callbackRequest
                  (AuthRoutes.session'
                     (AuthRoutes.handleLogin MoreSamples.deps MoreSamples.loginRequest
                        MoreSamples.nobody 0%nat))
                  2%nat 3%nat 4%nat
                  (Callback.mkLoginState "verifier" "n1"
                     (Some "https://app.example/letters") "s1")
                  (Callback.mkTokenSet _ _ "access" ("subject", "session") "800000002")
                  eq_refl eq_refl eq_refl eq_refl)).
Defined.

Lemma callback_ignores_stub_state_when_disabled_witness :
  AuthRoutes.AUTH_ENABLE_STUB_LOGIN MoreSamples.depsOff = false
  /\ Callback.net' _ _ _ _
       (AuthRoutes.handleCallback MoreSamples.depsOff Samples.callbackRequest
          (Callback.mkSession _ _ None None
             (Some (Callback.mkLoginState "verifier" "n1" None "s1"))
             (Some (Callback.mkStubloginState None None (Some "800000002")))) 0%nat)
     = Callback.net' _ _ _ _
         (AuthRoutes.handleCallback MoreSamples.depsOff Samples.callbackRequest
            (Callback.mkSession _ _ None None
               (Some (Callback.mkLoginState "verifier" "n1" None "s1"))
               None) 0%nat).
Proof.
  split; [reflexivity|].
  apply (callback_ignores_stub_state_when_disabled _ _ _ _ MoreSamples.depsOff
           Samples.callbackRequest 0%nat None None
           (Some (Callback.mkLoginState "verifier" "n1" None "s1"))
           (Some (Callback.mkStubloginState None None (Some "800000002"))) None eq_refl).
Defined.

Lemma login_then_callback_witness :
  Callback.outcome _ _ _ _
    (AuthRoutes.handleCallback MoreSamples.deps Samples.callbackRequest
       (AuthRoutes.session'
          (AuthRoutes.handleLogin MoreSamples.deps MoreSamples.loginRequest
             MoreSamples.nobody 0%nat))
       2%nat)
  = Callback.Returned _ (redirectUrl "https://app.example/letters").
Proof.
  exact (proj1 (proj2 (login_then_callback _ _ _ _ MoreSamples.deps
                         MoreSamples.loginRequest Samples.callbackRequest
                         MoreSamples.nobody 0%nat 1%nat 2%nat 2%nat 3%nat 4%nat
                         (AuthRoutes.mkSigninRequest
                            (AuthRoutes.mkUrl "https://idp.example/authorize"
                               [("redirect_uri", "https://app.example/auth/callback")])
                            "verifier" "n1" "s1")
                         (Callback.mkTokenSet _ _ "access" ("subject", "session") "800000002")
                         eq_refl eq_refl eq_refl eq_refl eq_refl))).
Defined.

(* ================================================================== *)
(** ** Metric names *)
(* ================================================================== *)

Import Telemetry.

Lemma isLetter_isNameChar (c : ascii) : isLetter c = true -> isNameChar c = true.
Proof. unfold isNameChar. intros ->. reflexivity. Qed.

Lemma replaceInvalid_allNameChars (s : string) : allNameChars (replaceInvalid s) = true.
Proof.
  induction s as [|c s IH]; [reflexivity|]. cbn [replaceInvalid allNameChars].
  rewrite IH. destruct (isNameChar c) eqn:Hc; [rewrite Hc|]; reflexivity.
Qed.

Lemma replaceInvalid_hasLetter (s : string) : hasLetter (replaceInvalid s) = hasLetter s.
Proof.
  induction s as [|c s IH]; [reflexivity|]. cbn [replaceInvalid hasLetter].
  rewrite IH. f_equal. destruct (isNameChar c) eqn:Hc; [reflexivity|].
  destruct (isLetter c) eqn:Hl; [|reflexivity].
  apply isLetter_isNameChar in Hl. congruence.
Qed.

Lemma stripLeading_shape (s : string) :
  allNameChars s = true ->
  if hasLetter s
  then exists c rest, stripLeading s = String c rest
                      /\ isLetter c = true /\ allNameChars rest = true
  else stripLeading s = "".
Proof.
  induction s as [|c s IH]; [reflexivity|]. cbn [allNameChars hasLetter stripLeading].
  intros Hall. apply andb_true_iff in Hall as [_ Hall].
  destruct (isLetter c) eqn:Hc; cbn [orb].
  - exists c, s. repeat split; assumption.
  - apply IH, Hall.
Qed.

Lemma slice0_allNameChars (n : nat) (s : string) :
  allNameChars s = true -> allNameChars (slice0 n s) = true.
Proof.
  revert s. induction n as [|n IH]; intros [|c s]; cbn [slice0 allNameChars]; try reflexivity.
  intros Hall. apply andb_true_iff in Hall as [Hc Hall]. rewrite Hc, (IH s Hall). reflexivity.
Qed.

Lemma slice0_length (n : nat) (s : string) : (String.length (slice0 n s) <= n)%nat.
Proof.
  revert s. induction n as [|n IH]; intros [|c s]; cbn [slice0 String.length]; try lia.
  specialize (IH s). lia.
Qed.

(** X19.  A sanitized metric name is at most 255 characters long, and it
    is a valid metric name whenever the given name holds a letter; a name
    without any letter is sanitized to the empty string, which is not a
    valid name. *)
Theorem sanitized_name_is_valid_or_empty (metricName : string) :
  let name := sanitizeMetricName metricName in
  (String.length name <= 255)%nat
  /\ METRIC_NAME_REGEX_test "" = false
  /\ if hasLetter metricName
     then METRIC_NAME_REGEX_test name = true
     else name = "".
Proof.
  cbn zeta. unfold sanitizeMetricName.
  destruct (METRIC_NAME_REGEX_test metricName) eqn:Htest.
  - destruct metricName as [|c rest]; [discriminate|].
    cbn [METRIC_NAME_REGEX_test] in Htest.
    apply andb_true_iff in Htest as [Htest Hlen].
    apply andb_true_iff in Htest as [Hc Hall].
    apply Nat.leb_le in Hlen.
    split; [cbn [String.length]; lia|]. split; [reflexivity|].
    cbn [hasLetter]. rewrite Hc. cbn [orb METRIC_NAME_REGEX_test].
    rewrite Hc, Hall. cbn [andb]. apply Nat.leb_le, Hlen.
  - split; [apply slice0_length|]. split; [reflexivity|].
    pose proof (stripLeading_shape (replaceInvalid metricName)
                  (replaceInvalid_allNameChars metricName)) as Hshape.
    rewrite replaceInvalid_hasLetter in Hshape.
    destruct (hasLetter metricName).
    + destruct Hshape as (c & rest & -> & Hc & Hall).
      change (slice0 255 (String c rest)) with (String c (slice0 254 rest)).
      cbn [METRIC_NAME_REGEX_test].
      rewrite Hc, (slice0_allNameChars 254 rest Hall). cbn [andb].
      apply Nat.leb_le, slice0_length.
    + rewrite Hshape. reflexivity.
Qed.

(** X20.  Sanitizing is idempotent: a sanitized name is returned as it is
    when sanitized again. *)
Theorem sanitize_is_idempotent (metricName : string) :
  sanitizeMetricName (sanitizeMetricName metricName) = sanitizeMetricName metricName.
Proof.
  assert (Hcases : sanitizeMetricName metricName = ""
                   \/ METRIC_NAME_REGEX_test (sanitizeMetricName metricName) = true).
  { unfold sanitizeMetricName.
    destruct (METRIC_NAME_REGEX_test metricName) eqn:Htest; [right; exact Htest|].
    pose proof (stripLeading_shape (replaceInvalid metricName)
                  (replaceInvalid_allNameChars metricName)) as Hshape.
    destruct (hasLetter (replaceInvalid metricName)).
    - right. destruct Hshape as (c & rest & -> & Hc & Hall).
      change (slice0 255 (String c rest)) with (String c (slice0 254 rest)).
      cbn [METRIC_NAME_REGEX_test].
      rewrite Hc, (slice0_allNameChars 254 rest Hall). cbn [andb].
      apply Nat.leb_le, slice0_length.
    - left. rewrite Hshape. reflexivity. }
  destruct Hcases as [Hempty|Hvalid].
  - rewrite Hempty. reflexivity.
  - unfold sanitizeMetricName at 1. rewrite Hvalid. reflexivity.
Qed.
